(** * Nano-Bananary credit ledger: a shallow embedding of the server models

    The development follows the server-side TypeScript sources:

    - [types.ts]              the persisted entities;
    - [server/db/db.ts]       the single, lazily opened SQLite connection;
    - [models/accountModel]   the ledger ([updateUserBalance] and wrappers);
    - [models/paymentModel]   payment orders and the payment callback;
    - [models/serviceModel]   service consumption, pricing and refunds;
    - [models/userModel]      user creation (which seeds the account) and
                              the user lookups;
    - [routes/userRoutes]     the registration handler and its password
                              pattern;
    - [routes/serviceRoutes]  the two route-level [checkUserBalance] helpers.

    Conventions.  Every number of the program is an IEEE 754 double, as a
    JavaScript [number] and as a REAL column.  The models run on integers of
    [Z], which is what the doubles compute as long as every value is a safe
    integer (of magnitude at most 2^53 - 1); statements that need exact
    sums say so in a hypothesis, and module [Doubles] runs the ledger
    arithmetic on doubles to show where rounding starts.  Fractional
    amounts are outside the model.  A [Date] is its [getTime()] value, a
    [Z] of milliseconds,
    and the clock does not advance while one request runs.  An id produced
    by [crypto.randomUUID()] is a natural number drawn from a counter kept
    in the world.  [async]/[await] code is run sequentially, one request at
    a time. *)

From Stdlib Require Import ZArith QArith List Ascii String Bool Lia Arith DecimalString.
From Stdlib Require Import Permutation Sorted.
From Stdlib Require Floats.
Import ListNotations.
Local Open Scope string_scope.
Local Open Scope Z_scope.

(** ** Entities (types.ts) *)

Definition Id := nat.
Definition Timestamp := Z.

Inductive TransactionType := deposit | withdrawal | reward | expiry.
Inductive PaymentStatus := pending | completed | failed | refunded.
Inductive PaymentMethod := wechat | alipay | other.
Inductive UsageStatus := usage_success | usage_failed | usage_refunded.

Definition is_withdrawal (t : TransactionType) : bool :=
  match t with withdrawal => true | _ => false end.
Definition is_pending (s : PaymentStatus) : bool :=
  match s with pending => true | _ => false end.
Definition is_completed (s : PaymentStatus) : bool :=
  match s with completed => true | _ => false end.
Definition is_usage_success (s : UsageStatus) : bool :=
  match s with usage_success => true | _ => false end.

Record User := {
  user_id : Id;
  username : string;
  email : string;
  phone : option string;
  isVerified : bool;
  user_createdAt : Timestamp;
  user_updatedAt : Timestamp
}.

Record UserAccount := {
  acc_userId : Id;
  balance : Z;
  lastUpdated : Timestamp
}.

Record CreditTransaction := {
  ct_id : Id;
  ct_userId : Id;
  ct_type : TransactionType;
  ct_amount : Z;
  previousBalance : Z;
  currentBalance : Z;
  relatedOrder : option Id;
  ct_description : option string;
  ct_createdAt : Timestamp
}.

Record Payment := {
  pay_id : Id;
  pay_userId : Id;
  pay_amount : Z;
  credits : Z;
  pay_status : PaymentStatus;
  method : PaymentMethod;
  transactionId : option string;
  pay_createdAt : Timestamp;
  pay_updatedAt : Timestamp
}.

Record ServiceUsage := {
  su_id : Id;
  su_userId : Id;
  serviceKey : string;
  creditsUsed : Z;
  su_status : UsageStatus;
  details : option string;
  su_createdAt : Timestamp
}.

(** ** The database (server/db/db.ts)

    [initDb] creates five tables.  [openDb] hands every caller the same
    connection object ([dbInstance]), so the transaction state of that
    connection is shared by all the model functions. *)

Record Tables := {
  users : list User;
  user_accounts : list UserAccount;
  credit_transactions : list CreditTransaction;
  payments : list Payment;
  service_usages : list ServiceUsage
}.

Definition empty_tables : Tables :=
  {| users := []; user_accounts := []; credit_transactions := [];
     payments := []; service_usages := [] |}.

(** The world a request runs in: the tables as the connection sees them, the
    snapshot to restore on ROLLBACK when a transaction is open on the
    connection, the wall clock and the UUID counter. *)
Record World := {
  db : Tables;
  open_txn : option Tables;
  now : Timestamp;
  next_uuid : nat
}.

Definition with_db (t : Tables) (w : World) : World :=
  {| db := t; open_txn := open_txn w; now := now w; next_uuid := next_uuid w |}.
Definition with_txn (o : option Tables) (w : World) : World :=
  {| db := db w; open_txn := o; now := now w; next_uuid := next_uuid w |}.
Definition with_now (t : Timestamp) (w : World) : World :=
  {| db := db w; open_txn := open_txn w; now := t; next_uuid := next_uuid w |}.

Definition initial_world (t0 : Timestamp) : World :=
  {| db := empty_tables; open_txn := None; now := t0; next_uuid := 0%nat |}.

(** ** Asynchronous computations that may throw

    A computation ends normally with a value or throws an [Error] with a
    message; either way the world it leaves behind is the one later code
    sees (a JavaScript [throw] undoes nothing). *)

Inductive Completion (A : Type) :=
| Normal (a : A)
| Throw (message : string).
Arguments Normal {A} a.
Arguments Throw {A} message.

Definition Async (A : Type) : Type := World -> Completion A * World.

Definition ret {A} (a : A) : Async A := fun w => (Normal a, w).
Definition throw {A} (message : string) : Async A := fun w => (Throw message, w).
Definition bind {A B} (m : Async A) (k : A -> Async B) : Async B :=
  fun w => match m w with
           | (Normal a, w') => k a w'
           | (Throw e, w') => (Throw e, w')
           end.
Definition try_catch {A} (body : Async A) (handler : string -> Async A) : Async A :=
  fun w => match body w with
           | (Normal a, w') => (Normal a, w')
           | (Throw e, w') => handler e w'
           end.

Notation "x <- m ;; k" := (bind m (fun x => k))
  (at level 61, m at next level, right associativity).
Notation "m ;;; k" := (bind m (fun _ => k))
  (at level 61, right associativity).

Definition result {A} (r : Completion A * World) : Completion A := fst r.
Definition world_after {A} (r : Completion A * World) : World := snd r.

Module Db.

(** [new Date()] *)
Definition new_Date : Async Timestamp := fun w => (Normal (now w), w).

(** [crypto.randomUUID()] *)
Definition randomUUID : Async Id :=
  fun w => (Normal (next_uuid w),
            {| db := db w; open_txn := open_txn w; now := now w;
               next_uuid := S (next_uuid w) |}).

(** [db.run('BEGIN TRANSACTION')], [db.run('COMMIT')], [db.run('ROLLBACK')].
    SQLite transactions do not nest (that is what SAVEPOINT is for): BEGIN
    inside a transaction is refused with an error, and so are COMMIT and
    ROLLBACK outside one; [db.run] then rejects, which [await] turns into a
    throw.  A refused BEGIN leaves the open transaction as it is. *)
Definition nested_begin_error : string :=
  "SQLITE_ERROR: cannot start a transaction within a transaction".

Definition BEGIN_TRANSACTION : Async unit :=
  fun w => match open_txn w with
           | None => (Normal tt, with_txn (Some (db w)) w)
           | Some _ => (Throw nested_begin_error, w)
           end.

Definition COMMIT : Async unit :=
  fun w => match open_txn w with
           | Some _ => (Normal tt, with_txn None w)
           | None => (Throw "SQLITE_ERROR: cannot commit - no transaction is active", w)
           end.

Definition ROLLBACK : Async unit :=
  fun w => match open_txn w with
           | Some saved => (Normal tt, with_txn None (with_db saved w))
           | None => (Throw "SQLITE_ERROR: cannot rollback - no transaction is active", w)
           end.

(** [db.get] / [db.all]: a read of the tables. *)
Definition select {A} (q : Tables -> A) : Async A := fun w => (Normal (q (db w)), w).

(** [db.run] of an UPDATE statement. *)
Definition update (f : Tables -> Tables) : Async unit :=
  fun w => (Normal tt, with_db (f (db w)) w).

(** [db.run] of an INSERT statement: it fails when the row breaks a PRIMARY
    KEY or UNIQUE constraint of the table. *)
Definition insert (conflict : Tables -> bool) (f : Tables -> Tables) : Async unit :=
  fun w => if conflict (db w)
           then (Throw "SQLITE_CONSTRAINT: UNIQUE constraint failed", w)
           else (Normal tt, with_db (f (db w)) w).

(** The statements of the models, table by table. *)

Definition option_eqb (a b : option string) : bool :=
  match a, b with
  | Some x, Some y => String.eqb x y
  | _, _ => false
  end.

Definition user_conflict (u : User) (t : Tables) : bool :=
  existsb (fun x => Nat.eqb (user_id x) (user_id u)
                    || String.eqb (username x) (username u)
                    || String.eqb (email x) (email u)
                    || option_eqb (phone x) (phone u)) (users t).

Definition add_user (u : User) (t : Tables) : Tables :=
  {| users := users t ++ [u]; user_accounts := user_accounts t;
     credit_transactions := credit_transactions t;
     payments := payments t; service_usages := service_usages t |}.

Definition account_conflict (a : UserAccount) (t : Tables) : bool :=
  existsb (fun x => Nat.eqb (acc_userId x) (acc_userId a)) (user_accounts t).

Definition add_account (a : UserAccount) (t : Tables) : Tables :=
  {| users := users t; user_accounts := user_accounts t ++ [a];
     credit_transactions := credit_transactions t;
     payments := payments t; service_usages := service_usages t |}.

Definition map_accounts (f : UserAccount -> UserAccount) (t : Tables) : Tables :=
  {| users := users t; user_accounts := map f (user_accounts t);
     credit_transactions := credit_transactions t;
     payments := payments t; service_usages := service_usages t |}.

Definition transaction_conflict (r : CreditTransaction) (t : Tables) : bool :=
  existsb (fun x => Nat.eqb (ct_id x) (ct_id r)) (credit_transactions t).

Definition add_transaction (r : CreditTransaction) (t : Tables) : Tables :=
  {| users := users t; user_accounts := user_accounts t;
     credit_transactions := credit_transactions t ++ [r];
     payments := payments t; service_usages := service_usages t |}.

Definition payment_conflict (p : Payment) (t : Tables) : bool :=
  existsb (fun x => Nat.eqb (pay_id x) (pay_id p)) (payments t).

Definition add_payment (p : Payment) (t : Tables) : Tables :=
  {| users := users t; user_accounts := user_accounts t;
     credit_transactions := credit_transactions t;
     payments := payments t ++ [p]; service_usages := service_usages t |}.

Definition map_payments (f : Payment -> Payment) (t : Tables) : Tables :=
  {| users := users t; user_accounts := user_accounts t;
     credit_transactions := credit_transactions t;
     payments := map f (payments t); service_usages := service_usages t |}.

Definition usage_conflict (u : ServiceUsage) (t : Tables) : bool :=
  existsb (fun x => Nat.eqb (su_id x) (su_id u)) (service_usages t).

Definition add_usage (u : ServiceUsage) (t : Tables) : Tables :=
  {| users := users t; user_accounts := user_accounts t;
     credit_transactions := credit_transactions t;
     payments := payments t; service_usages := service_usages t ++ [u] |}.

Definition map_usages (f : ServiceUsage -> ServiceUsage) (t : Tables) : Tables :=
  {| users := users t; user_accounts := user_accounts t;
     credit_transactions := credit_transactions t;
     payments := payments t; service_usages := map f (service_usages t) |}.

(** [SELECT ... FROM user_accounts WHERE userId = ?] *)
Definition account_of (userId : Id) (t : Tables) : option UserAccount :=
  find (fun a => Nat.eqb (acc_userId a) userId) (user_accounts t).

(** [SELECT * FROM payments WHERE id = ?] *)
Definition payment_of (id : Id) (t : Tables) : option Payment :=
  find (fun p => Nat.eqb (pay_id p) id) (payments t).

(** [SELECT * FROM service_usages WHERE id = ?] *)
Definition usage_of (id : Id) (t : Tables) : option ServiceUsage :=
  find (fun u => Nat.eqb (su_id u) id) (service_usages t).

(** [ORDER BY createdAt DESC]: newest first.  Timestamps are compared as
    numbers, which is how their ISO strings compare for four-digit years.
    Rows created at the same instant keep their insertion order here; SQLite
    does not fix their order and no property stated below depends on it. *)
Fixpoint insert_desc {A} (key : A -> Z) (x : A) (l : list A) : list A :=
  match l with
  | [] => [x]
  | y :: l' => if key y <=? key x then x :: l else y :: insert_desc key x l'
  end.

Definition order_by_desc {A} (key : A -> Z) (l : list A) : list A :=
  fold_right (insert_desc key) [] l.

(** [LIMIT ? OFFSET ?]: a negative LIMIT is no limit, a negative OFFSET
    counts as 0. *)
Definition limit_offset {A} (limit offset : Z) (l : list A) : list A :=
  let rest := skipn (Z.to_nat offset) l in
  if limit <? 0 then rest else firstn (Z.to_nat limit) rest.

End Db.

(** ** JavaScript values at the price lookups

    The price tables are plain object literals indexed with an arbitrary
    string ([table[key as keyof typeof table] || 0]; the cast is erased at
    run time).  A key that is not an own property is looked up on
    [Object.prototype], whose members are functions or objects, hence truthy
    and not numbers. *)

Inductive JsValue :=
| JsNumber (n : Z)
| JsUndefined
| JsInherited (name : string).

Definition object_prototype_properties : list string :=
  [ "constructor"; "hasOwnProperty"; "isPrototypeOf"; "propertyIsEnumerable";
    "toLocaleString"; "toString"; "valueOf"; "__proto__";
    "__defineGetter__"; "__defineSetter__"; "__lookupGetter__";
    "__lookupSetter__" ].

Definition own_property (table : list (string * Z)) (key : string) : option Z :=
  match find (fun kv => String.eqb (fst kv) key) table with
  | Some kv => Some (snd kv)
  | None => None
  end.

(** [table[key]] *)
Definition get_property (table : list (string * Z)) (key : string) : JsValue :=
  match own_property table key with
  | Some n => JsNumber n
  | None => if existsb (String.eqb key) object_prototype_properties
            then JsInherited key
            else JsUndefined
  end.

Definition truthy (v : JsValue) : bool :=
  match v with
  | JsNumber n => negb (n =? 0)
  | JsUndefined => false
  | JsInherited _ => true
  end.

(** [a || b] *)
Definition js_or (a b : JsValue) : JsValue := if truthy a then a else b.

(** [a >= b] for a number [a]: an operand that is not a number converts to
    NaN, and every comparison with NaN is false. *)
Definition js_ge (a : Z) (b : JsValue) : bool :=
  match b with
  | JsNumber n => n <=? a
  | _ => false
  end.

(** ** models/accountModel.ts *)

Module AccountModel.

Definition generateId : Async Id := Db.randomUUID.

Definition getUserAccount (userId : Id) : Async (option UserAccount) :=
  Db.select (Db.account_of userId).

(** [UPDATE user_accounts SET balance = ?, lastUpdated = ? WHERE userId = ?] *)
Definition set_balance (userId : Id) (newBalance : Z) (ts : Timestamp)
    (a : UserAccount) : UserAccount :=
  if Nat.eqb (acc_userId a) userId
  then {| acc_userId := acc_userId a; balance := newBalance; lastUpdated := ts |}
  else a.

Definition updateUserBalance (userId : Id) (amount : Z) (type : TransactionType)
    (description : option string) (relatedOrder : option Id) : Async bool :=
  Db.BEGIN_TRANSACTION ;;;
  try_catch
    (account <- Db.select (Db.account_of userId) ;;
     match account with
     | None => throw "User account not found"
     | Some account =>
       let previousBalance := balance account in
       let currentBalance := previousBalance + amount in
       if is_withdrawal type && (currentBalance <? 0)
       then throw "Insufficient balance"
       else
         now <- Db.new_Date ;;
         Db.update (Db.map_accounts (set_balance userId currentBalance now)) ;;;
         transactionId <- generateId ;;
         (let row := {| ct_id := transactionId; ct_userId := userId;
                        ct_type := type; ct_amount := amount;
                        previousBalance := previousBalance;
                        currentBalance := currentBalance;
                        relatedOrder := relatedOrder;
                        ct_description := description;
                        ct_createdAt := now |} in
          Db.insert (Db.transaction_conflict row) (Db.add_transaction row)) ;;;
         Db.COMMIT ;;;
         ret true
     end)
    (fun _ => Db.ROLLBACK ;;; ret false).

Definition getBalance (userId : Id) : Async Z :=
  account <- getUserAccount userId ;;
  match account with
  | None => ret 0
  | Some account => ret (balance account)
  end.

Definition checkBalance (userId : Id) (requiredAmount : JsValue) : Async bool :=
  account <- getUserAccount userId ;;
  match account with
  | None => ret false
  | Some account => ret (js_ge (balance account) requiredAmount)
  end.

Definition depositCredits (userId : Id) (amount : Z) (relatedOrder : option Id)
    (description : option string) : Async bool :=
  updateUserBalance userId amount deposit description relatedOrder.

Definition withdrawCredits (userId : Id) (amount : Z) (relatedOrder : option Id)
    (description : option string) : Async bool :=
  updateUserBalance userId (- amount) withdrawal description relatedOrder.

Definition deductCredits := withdrawCredits.

Definition rewardCredits (userId : Id) (amount : Z) (description : option string)
    : Async bool :=
  updateUserBalance userId amount reward description None.

(** [limit] and [offset] are parameters with default values 50 and 0. *)
Definition getUserTransactions (userId : Id) (limit offset : option Z)
    : Async (list CreditTransaction) :=
  let limit := match limit with Some n => n | None => 50 end in
  let offset := match offset with Some n => n | None => 0 end in
  Db.select (fun t =>
    Db.limit_offset limit offset
      (Db.order_by_desc ct_createdAt
         (filter (fun r => Nat.eqb (ct_userId r) userId) (credit_transactions t)))).

End AccountModel.

(** [`${n}`] for an integral number. *)
Definition number_to_string (n : Z) : string :=
  DecimalString.NilZero.string_of_int (Z.to_int n).

(** ** models/paymentModel.ts *)

Module PaymentModel.

Definition generateId : Async Id := Db.randomUUID.

(** [creditsRate] is a parameter with default value 10. *)
Definition createPayment (userId : Id) (amount : Z) (method : PaymentMethod)
    (creditsRate : option Z) : Async Payment :=
  let creditsRate := match creditsRate with Some r => r | None => 10 end in
  id <- generateId ;;
  let credits := amount * creditsRate in
  now <- Db.new_Date ;;
  let payment := {| pay_id := id; pay_userId := userId; pay_amount := amount;
                    credits := credits; pay_status := pending; method := method;
                    transactionId := None;
                    pay_createdAt := now; pay_updatedAt := now |} in
  Db.insert (Db.payment_conflict payment) (Db.add_payment payment) ;;;
  ret payment.

Definition getPaymentById (id : Id) : Async (option Payment) :=
  Db.select (Db.payment_of id).

(** [UPDATE payments SET status = ?, transactionId = ?, updatedAt = ? WHERE id = ?] *)
Definition set_status (paymentId : Id) (status : PaymentStatus)
    (transactionId : option string) (ts : Timestamp) (p : Payment) : Payment :=
  if Nat.eqb (pay_id p) paymentId
  then {| pay_id := pay_id p; pay_userId := pay_userId p;
          pay_amount := pay_amount p; credits := credits p;
          pay_status := status; method := method p;
          transactionId := transactionId;
          pay_createdAt := pay_createdAt p; pay_updatedAt := ts |}
  else p.

(** The type of [status] is ['completed' | 'failed' | 'refunded']; the
    function does not depend on that restriction. *)
Definition updatePaymentStatus (paymentId : Id) (status : PaymentStatus)
    (transactionId : option string) : Async bool :=
  Db.BEGIN_TRANSACTION ;;;
  try_catch
    (payment <- getPaymentById paymentId ;;
     match payment with
     | None => throw "Payment not found"
     | Some payment =>
       if negb (is_pending (pay_status payment))
       then throw "Payment is not pending"
       else
         now <- Db.new_Date ;;
         Db.update (Db.map_payments (set_status paymentId status transactionId now)) ;;;
         (if is_completed status
          then AccountModel.depositCredits (pay_userId payment) (credits payment)
                 (Some paymentId)
                 (Some ("充值" ++ number_to_string (credits payment) ++ "积分")) ;;;
               ret tt
          else ret tt) ;;;
         Db.COMMIT ;;;
         ret true
     end)
    (fun _ => Db.ROLLBACK ;;; ret false).

Definition handlePaymentCallback (paymentId : Id) (transactionId : string)
    (success : bool) : Async bool :=
  updatePaymentStatus paymentId (if success then completed else failed)
    (Some transactionId).

Definition getUserPayments (userId : Id) (limit offset : option Z)
    : Async (list Payment) :=
  let limit := match limit with Some n => n | None => 50 end in
  let offset := match offset with Some n => n | None => 0 end in
  Db.select (fun t =>
    Db.limit_offset limit offset
      (Db.order_by_desc pay_createdAt
         (filter (fun p => Nat.eqb (pay_userId p) userId) (payments t)))).

End PaymentModel.

(** ** models/serviceModel.ts *)

Module ServiceModel.

Definition generateId : Async Id := Db.randomUUID.

Definition createServiceUsage (userId : Id) (serviceKey : string) (creditsUsed : Z)
    (status : UsageStatus) (details : option string) : Async ServiceUsage :=
  id <- generateId ;;
  now <- Db.new_Date ;;
  let usage := {| su_id := id; su_userId := userId; serviceKey := serviceKey;
                  creditsUsed := creditsUsed; su_status := status;
                  details := details; su_createdAt := now |} in
  Db.insert (Db.usage_conflict usage) (Db.add_usage usage) ;;;
  ret usage.

Record ConsumeResult := {
  success : bool;
  message : option string;
  serviceUsage : option ServiceUsage
}.

(** [`${details || ''} - Error: ${errorMessage}`] *)
Definition failure_details (details : option string) (errorMessage : string) : string :=
  match details with Some d => d | None => "" end ++ " - Error: " ++ errorMessage.

Definition consumeService (userId : Id) (serviceKey : string) (credits : Z)
    (details : option string) : Async ConsumeResult :=
  Db.BEGIN_TRANSACTION ;;;
  try_catch
    (hasEnoughBalance <- AccountModel.checkBalance userId (JsNumber credits) ;;
     if negb hasEnoughBalance
     then throw "Insufficient balance"
     else
       withdrawSuccess <- AccountModel.withdrawCredits userId credits None
                            (Some ("使用" ++ serviceKey ++ "服务")) ;;
       if negb withdrawSuccess
       then throw "Failed to withdraw credits"
       else
         serviceUsage <- createServiceUsage userId serviceKey credits
                           usage_success details ;;
         Db.COMMIT ;;;
         ret {| success := true; message := None;
                serviceUsage := Some serviceUsage |})
    (fun errorMessage =>
       Db.ROLLBACK ;;;
       createServiceUsage userId serviceKey credits usage_failed
         (Some (failure_details details errorMessage)) ;;;
       ret {| success := false; message := Some errorMessage;
              serviceUsage := None |}).

Definition servicePricing : list (string * Z) :=
  [ ("ai-image-edit", 5);
    ("ai-image-generate", 10);
    ("high-resolution-edit", 15);
    ("batch-processing", 20);
    ("remove-background", 3);
    ("enhance-image", 4);
    ("resize-image", 2) ].

Definition getServicePrice (serviceKey : string) : JsValue :=
  js_or (get_property servicePricing serviceKey) (JsNumber 0).

(** [timeDiff / (1000 * 60 * 60)], a quotient of two integral numbers. *)
Definition hoursDiff (timeDiff : Z) : Q :=
  (inject_Z timeDiff / inject_Z (1000 * 60 * 60))%Q.

(** [UPDATE user_accounts SET balance = balance + ?, lastUpdated = ? WHERE userId = ?] *)
Definition add_balance (userId : Id) (delta : Z) (ts : Timestamp)
    (a : UserAccount) : UserAccount :=
  if Nat.eqb (acc_userId a) userId
  then {| acc_userId := acc_userId a; balance := balance a + delta;
          lastUpdated := ts |}
  else a.

(** [UPDATE service_usages SET status = ? WHERE id = ?] *)
Definition set_usage_status (id : Id) (status : UsageStatus)
    (u : ServiceUsage) : ServiceUsage :=
  if Nat.eqb (su_id u) id
  then {| su_id := su_id u; su_userId := su_userId u;
          serviceKey := serviceKey u; creditsUsed := creditsUsed u;
          su_status := status; details := details u;
          su_createdAt := su_createdAt u |}
  else u.

(** [`服务退款: ${serviceUsage.serviceKey} ${reason || ''}`] *)
Definition refund_description (key : string) (reason : option string) : string :=
  "服务退款: " ++ key ++ " " ++ match reason with Some r => r | None => "" end.

Definition refundServiceConsumption (serviceUsageId : Id) (reason : option string)
    : Async bool :=
  Db.BEGIN_TRANSACTION ;;;
  try_catch
    (serviceUsage <- Db.select (Db.usage_of serviceUsageId) ;;
     match serviceUsage with
     | None => throw "Invalid service usage record"
     | Some serviceUsage =>
       if negb (is_usage_success (su_status serviceUsage))
       then throw "Invalid service usage record"
       else
         let usageTime := su_createdAt serviceUsage in
         now <- Db.new_Date ;;
         let timeDiff := now - usageTime in
         if negb (Qle_bool (hoursDiff timeDiff) (inject_Z 24))
         then throw "Refund period expired"
         else
           Db.update (Db.map_accounts
                        (add_balance (su_userId serviceUsage)
                           (creditsUsed serviceUsage) now)) ;;;
           Db.update (Db.map_usages
                        (set_usage_status serviceUsageId usage_refunded)) ;;;
           transactionId <- generateId ;;
           (let row := {| ct_id := transactionId;
                          ct_userId := su_userId serviceUsage;
                          ct_type := reward;
                          ct_amount := creditsUsed serviceUsage;
                          previousBalance :=
                            creditsUsed serviceUsage - creditsUsed serviceUsage;
                          currentBalance := creditsUsed serviceUsage;
                          relatedOrder := Some serviceUsageId;
                          ct_description :=
                            Some (refund_description (serviceKey serviceUsage) reason);
                          ct_createdAt := now |} in
            Db.insert (Db.transaction_conflict row) (Db.add_transaction row)) ;;;
           Db.COMMIT ;;;
           ret true
     end)
    (fun _ => Db.ROLLBACK ;;; ret false).

Record Confirmation := {
  canConsume : bool;
  cc_balance : Z
}.

Definition confirmServiceConsumption (userId : Id) (serviceKey : string)
    (credits : Z) : Async Confirmation :=
  account <- Db.select (Db.account_of userId) ;;
  match account with
  | None => ret {| canConsume := false; cc_balance := 0 |}
  | Some account =>
    ret {| canConsume := credits <=? balance account;
           cc_balance := balance account |}
  end.

(** The query gets [AND serviceKey = ?] only [if (serviceKey)]: an absent
    or empty key does not filter. *)
Definition usage_query (userId : Id) (key : option string) (u : ServiceUsage) : bool :=
  match key with
  | Some k => if String.eqb k "" then Nat.eqb (su_userId u) userId
              else Nat.eqb (su_userId u) userId && String.eqb (serviceKey u) k
  | None => Nat.eqb (su_userId u) userId
  end.

Definition getUserServiceUsages (userId : Id) (limit offset : option Z)
    (key : option string) : Async (list ServiceUsage) :=
  let limit := match limit with Some n => n | None => 50 end in
  let offset := match offset with Some n => n | None => 0 end in
  Db.select (fun t =>
    Db.limit_offset limit offset
      (Db.order_by_desc su_createdAt
         (filter (usage_query userId key) (service_usages t)))).

End ServiceModel.

(** ** models/userModel.ts *)

Module UserModel.

Definition generateId : Async Id := Db.randomUUID.

(** The password is salted and hashed before it is stored; neither value
    takes part in the ledger, so the row keeps the other columns only. *)
Definition createUser (username email password : string) (phone : option string)
    : Async User :=
  id <- generateId ;;
  now <- Db.new_Date ;;
  verificationToken <- generateId ;;
  let user := {| user_id := id; username := username; email := email;
                 phone := phone; isVerified := true;
                 user_createdAt := now; user_updatedAt := now |} in
  Db.insert (Db.user_conflict user) (Db.add_user user) ;;;
  (let account := {| acc_userId := id; balance := 15; lastUpdated := now |} in
   Db.insert (Db.account_conflict account) (Db.add_account account)) ;;;
  ret user.

(** The three lookups return the row, with [isVerified] as a boolean. *)
Definition getUserById (id : Id) : Async (option User) :=
  Db.select (fun t => find (fun u => Nat.eqb (user_id u) id) (users t)).

Definition getUserByEmail (mail : string) : Async (option User) :=
  Db.select (fun t => find (fun u => String.eqb (email u) mail) (users t)).

Definition getUserByUsername (name : string) : Async (option User) :=
  Db.select (fun t => find (fun u => String.eqb (username u) name) (users t)).

End UserModel.

(** ** routes/userRoutes.ts: registration *)

Module UserRoutes.

Definition code (c : Ascii.ascii) : N := Ascii.N_of_ascii c.
Definition between (lo hi c : Ascii.ascii) : bool :=
  (code lo <=? code c)%N && (code c <=? code hi)%N.

(** The character classes of the password pattern.  A string is the
    sequence of its UTF-8 bytes: for ASCII text these are its characters,
    and a character outside ASCII is a run of bytes above 127, none of
    which is in a class, as the character itself is in none. *)
Definition lowercase (c : Ascii.ascii) : bool := between "a"%char "z"%char c.
Definition uppercase (c : Ascii.ascii) : bool := between "A"%char "Z"%char c.
Definition digit (c : Ascii.ascii) : bool := between "0"%char "9"%char c.
Definition special (c : Ascii.ascii) : bool :=
  existsb (Ascii.eqb c) ["@"; "$"; "!"; "%"; "*"; "?"; "&"]%char.
Definition allowed (c : Ascii.ascii) : bool :=
  uppercase c || lowercase c || digit c || special c.

(** [.] matches every character but a line terminator. *)
Definition dot (c : Ascii.ascii) : bool :=
  negb (Ascii.eqb c "010"%char) && negb (Ascii.eqb c "013"%char).

(** [(?=.*[class])] at the start of [s]: a character of the class is reached
    over characters that [.] matches. *)
Fixpoint lookahead (class : Ascii.ascii -> bool) (s : string) : bool :=
  match s with
  | EmptyString => false
  | String c rest => class c || (dot c && lookahead class rest)
  end.

(** The longest run of [class] at the start of [s]. *)
Fixpoint run (class : Ascii.ascii -> bool) (s : string) : nat :=
  match s with
  | EmptyString => 0
  | String c rest => if class c then S (run class rest) else 0
  end.

(** [/^(?=.*[a-z])(?=.*[A-Z])(?=.*\d)(?=.*[@$!%*?&])[A-Za-z\d@$!%*?&]{8,}$/]:
    the four lookaheads at the start, then a run of at least 8 allowed
    characters that reaches the end of the input. *)
Definition isStrongPassword (password : string) : bool :=
  lookahead lowercase password
  && lookahead uppercase password
  && lookahead digit password
  && lookahead special password
  && (8 <=? run allowed password)%nat
  && Nat.eqb (run allowed password) (String.length password).

(** The JSON body of the request, for the requests in which each of the
    four fields is a string or absent; a field holding another JSON value
    (a number, an array, an object) is left out.  [!field] holds for an
    absent field and for the empty string. *)
Record RegisterBody := {
  body_username : option string;
  body_email : option string;
  body_password : option string;
  body_phone : option string
}.

Definition missing (field : option string) : bool :=
  match field with
  | None => true
  | Some s => String.eqb s ""
  end.

Definition text (field : option string) : string :=
  match field with Some s => s | None => "" end.

(** The status and the body of the answer; the JWT that comes with a 201 is
    issued outside the models and is left out. *)
Inductive RegisterResponse :=
| Created_201 (userId : Id)
| BadRequest_400 (error : string)
| InternalError_500.

Definition weak_password_error : string :=
  "Password must be at least 8 characters long and contain uppercase, lowercase, number, and special character".

Definition register (body : RegisterBody) : Async RegisterResponse :=
  try_catch
    (if missing (body_username body) || missing (body_email body)
        || missing (body_password body)
     then ret (BadRequest_400 "Username, email, and password are required")
     else if negb (isStrongPassword (text (body_password body)))
     then ret (BadRequest_400 weak_password_error)
     else
       existingUserByEmail <- UserModel.getUserByEmail (text (body_email body)) ;;
       match existingUserByEmail with
       | Some _ => ret (BadRequest_400 "Email already in use")
       | None =>
         existingUserByUsername <-
           UserModel.getUserByUsername (text (body_username body)) ;;
         match existingUserByUsername with
         | Some _ => ret (BadRequest_400 "Username already in use")
         | None =>
           user <- UserModel.createUser (text (body_username body))
                     (text (body_email body)) (text (body_password body))
                     (body_phone body) ;;
           ret (Created_201 (user_id user))
         end
       end)
    (fun _ => ret InternalError_500).

End UserRoutes.

(** ** routes/serviceRoutes.ts: the route with the generation call *)

Module ServiceRoutes.

Definition SERVICE_PRICES : list (string * Z) := [ ("ai-image-edit", 3) ].

Record BalanceCheck := {
  hasSufficientBalance : bool;
  requiredCredits : JsValue
}.

Definition checkUserBalance (userId : Id) (serviceName : string) : Async BalanceCheck :=
  let requiredCredits := js_or (get_property SERVICE_PRICES serviceName) (JsNumber 0) in
  hasSufficientBalance <- AccountModel.checkBalance userId requiredCredits ;;
  ret {| hasSufficientBalance := hasSufficientBalance;
         requiredCredits := requiredCredits |}.

End ServiceRoutes.

(** ** routes/serviceRoutes.ts: the sample route with simulated processing *)

Module SampleServiceRoutes.

Definition SERVICE_PRICES : list (string * Z) :=
  [ ("ai-image-edit", 5); ("ai-video-generate", 20) ].

Definition checkUserBalance (userId : Id) (serviceName : string)
    : Async ServiceRoutes.BalanceCheck :=
  let requiredCredits := js_or (get_property SERVICE_PRICES serviceName) (JsNumber 0) in
  account <- AccountModel.getUserAccount userId ;;
  let balance := match account with Some account => balance account | None => 0 end in
  ret {| ServiceRoutes.hasSufficientBalance := js_ge balance requiredCredits;
         ServiceRoutes.requiredCredits := requiredCredits |}.

End SampleServiceRoutes.

(** ** The ledger arithmetic on doubles

    Sums, differences and products of safe integers whose exact result is a
    safe integer are exact on doubles; outside that range the code rounds
    to the nearest double.  This module runs the arithmetic of
    [updateUserBalance] on doubles, for one existing account and its audit
    rows on an idle connection. *)

Module Doubles.
Import Floats.

Record Row := {
  type : TransactionType;
  amount : float;
  previousBalance : float;
  currentBalance : float
}.

(** The [balance] of the account and the rows written for it. *)
Record Ledger := {
  balance : float;
  rows : list Row
}.

(** accountModel.ts: [previousBalance], [currentBalance], the guard, the
    UPDATE of the balance and the INSERT of the row. *)
Definition updateUserBalance (amount : float) (type : TransactionType)
    (l : Ledger) : bool * Ledger :=
  let previousBalance := balance l in
  let currentBalance := (previousBalance + amount)%float in
  if is_withdrawal type && (currentBalance <? 0)%float
  then (false, l)
  else (true,
        {| balance := currentBalance;
           rows := (rows l
                    ++ [{| type := type; amount := amount;
                           previousBalance := previousBalance;
                           currentBalance := currentBalance |}])%list |}).

Definition depositCredits (amount : float) (l : Ledger) : bool * Ledger :=
  updateUserBalance amount deposit l.

Definition withdrawCredits (amount : float) (l : Ledger) : bool * Ledger :=
  updateUserBalance (- amount)%float withdrawal l.

(** The account [createUser] inserts. *)
Definition seeded : Ledger := {| balance := 15; rows := [] |}.

(** The double nearest to an integer (below 2^63 in magnitude). *)
Definition double (z : Z) : float :=
  if z <? 0 then (- of_uint63 (Uint63.of_Z (- z)))%float
  else of_uint63 (Uint63.of_Z z).

(** The exact value of a double, when it is an integer. *)
Definition integer_value (x : float) : option Z :=
  match Prim2SF x with
  | S754_zero _ => Some 0
  | S754_finite negative m e =>
    let magnitude :=
      if 0 <=? e then Some (Zpos m * 2 ^ e)
      else if Zpos m mod 2 ^ (- e) =? 0 then Some (Zpos m / 2 ^ (- e))
      else None in
    match magnitude with
    | Some v => Some (if negative then - v else v)
    | None => None
    end
  | _ => None
  end.

(** The exact value of a finite double. *)
Definition rational_value (x : float) : option Q :=
  match Prim2SF x with
  | S754_zero _ => Some (0 # 1)
  | S754_finite negative m e =>
    let magnitude :=
      if 0 <=? e then (Zpos m * 2 ^ e) # 1
      else Zpos m # Z.to_pos (2 ^ (- e)) in
    Some (if negative then Qopp magnitude else magnitude)
  | _ => None
  end.

(** The exact sum of the amounts logged. *)
Definition logged (l : Ledger) : option Q :=
  fold_right
    (fun r total =>
       match rational_value (amount r), total with
       | Some a, Some t => Some (Qred (a + t))
       | _, _ => None
       end)
    (Some (0 # 1)) (rows l).

(** The doubles that the literals 0.1 and 0.2 denote. *)
Definition tenth : float := 0x1.999999999999ap-4.
Definition fifth : float := 0x1.999999999999ap-3.

End Doubles.

(** ** Worlds between requests *)

(** No transaction is open on the shared connection. *)
Definition idle (w : World) : Prop := open_txn w = None.

(** Every id stored in a PRIMARY KEY column was drawn from the UUID counter
    earlier, so the next UUIDs are new to every table. *)
Definition ids_below (n : nat) (t : Tables) : bool :=
  forallb (fun u => Nat.ltb (user_id u) n) (users t)
  && forallb (fun a => Nat.ltb (acc_userId a) n) (user_accounts t)
  && forallb (fun r => Nat.ltb (ct_id r) n) (credit_transactions t)
  && forallb (fun p => Nat.ltb (pay_id p) n) (payments t)
  && forallb (fun u => Nat.ltb (su_id u) n) (service_usages t).

Definition well_formed (w : World) : Prop :=
  idle w /\ ids_below (next_uuid w) (db w) = true.

(** The audit log of one user. *)
Definition Zsum (l : list Z) : Z := fold_right Z.add 0 l.

Definition transactions_of (userId : Id) (t : Tables) : list CreditTransaction :=
  filter (fun r => Nat.eqb (ct_userId r) userId) (credit_transactions t).

Definition ledger_sum (userId : Id) (t : Tables) : Z :=
  Zsum (map ct_amount (transactions_of userId t)).

(** The requests that write to the database. *)
Inductive Call :=
| CreateUser (username email password : string) (phone : option string)
| UpdateUserBalance (userId : Id) (amount : Z) (type : TransactionType)
    (description : option string) (relatedOrder : option Id)
| CreatePayment (userId : Id) (amount : Z) (method : PaymentMethod)
    (creditsRate : option Z)
| UpdatePaymentStatus (paymentId : Id) (status : PaymentStatus)
    (transactionId : option string)
| CreateServiceUsage (userId : Id) (serviceKey : string) (creditsUsed : Z)
    (status : UsageStatus) (details : option string)
| ConsumeService (userId : Id) (serviceKey : string) (credits : Z)
    (details : option string)
| RefundServiceConsumption (serviceUsageId : Id) (reason : option string).

Definition perform (c : Call) (w : World) : World :=
  match c with
  | CreateUser username email password phone =>
      world_after (UserModel.createUser username email password phone w)
  | UpdateUserBalance userId amount type description relatedOrder =>
      world_after (AccountModel.updateUserBalance userId amount type
                     description relatedOrder w)
  | CreatePayment userId amount method creditsRate =>
      world_after (PaymentModel.createPayment userId amount method creditsRate w)
  | UpdatePaymentStatus paymentId status transactionId =>
      world_after (PaymentModel.updatePaymentStatus paymentId status transactionId w)
  | CreateServiceUsage userId serviceKey creditsUsed status details =>
      world_after (ServiceModel.createServiceUsage userId serviceKey creditsUsed
                     status details w)
  | ConsumeService userId serviceKey credits details =>
      world_after (ServiceModel.consumeService userId serviceKey credits details w)
  | RefundServiceConsumption serviceUsageId reason =>
      world_after (ServiceModel.refundServiceConsumption serviceUsageId reason w)
  end.

(** A UUID drawn for a new user is new: no audit row already names it. *)
Definition uuid_unseen (w : World) : Prop :=
  forall r, In r (credit_transactions (db w)) -> ct_userId r <> next_uuid w.

Definition admissible (c : Call) (w : World) : Prop :=
  match c with
  | CreateUser _ _ _ _ => uuid_unseen w
  | _ => True
  end.

(** The worlds reached from the freshly initialised database by running
    requests one after the other while the clock advances. *)
Inductive reachable : World -> Prop :=
| reach_init : forall t0, reachable (initial_world t0)
| reach_call : forall w c,
    reachable w -> admissible c w -> reachable (perform c w)
| reach_clock : forall w t,
    reachable w -> now w <= t -> reachable (with_now t w).

(** The row [updateUserBalance] writes. *)
Definition audit_row (w : World) (userId : Id) (amount : Z) (type : TransactionType)
    (description : option string) (relatedOrder : option Id) (previous : Z)
    : CreditTransaction :=
  {| ct_id := next_uuid w; ct_userId := userId; ct_type := type;
     ct_amount := amount; previousBalance := previous;
     currentBalance := previous + amount; relatedOrder := relatedOrder;
     ct_description := description; ct_createdAt := now w |}.

(** The world after [k] more UUIDs were drawn. *)
Definition bump (k : nat) (w : World) : World :=
  {| db := db w; open_txn := open_txn w; now := now w;
     next_uuid := (k + next_uuid w)%nat |}.

(** What the [catch] block of [consumeService] does after ROLLBACK. *)
Definition consume_failure (userId : Id) (key : string) (credits : Z)
    (details : option string) (errorMessage : string) (w : World)
    : Completion ServiceModel.ConsumeResult * World :=
  let usage := {| su_id := next_uuid w; su_userId := userId; serviceKey := key;
                  creditsUsed := credits; su_status := usage_failed;
                  details := Some (ServiceModel.failure_details details errorMessage);
                  su_createdAt := now w |} in
  if Db.usage_conflict usage (db w)
  then (Throw "SQLITE_CONSTRAINT: UNIQUE constraint failed", bump 1 w)
  else (Normal {| ServiceModel.success := false;
                  ServiceModel.message := Some errorMessage;
                  ServiceModel.serviceUsage := None |},
        with_db (Db.add_usage usage (db w)) (bump 1 w)).

(** The row [refundServiceConsumption] writes. *)
Definition refund_row (w : World) (serviceUsageId : Id) (reason : option string)
    (usage : ServiceUsage) : CreditTransaction :=
  {| ct_id := next_uuid w; ct_userId := su_userId usage; ct_type := reward;
     ct_amount := creditsUsed usage;
     previousBalance := creditsUsed usage - creditsUsed usage;
     currentBalance := creditsUsed usage;
     relatedOrder := Some serviceUsageId;
     ct_description :=
       Some (ServiceModel.refund_description (serviceKey usage) reason);
     ct_createdAt := now w |}.

(** Twenty-four hours in milliseconds. *)
Definition refund_window_ms : Z := 24 * (1000 * 60 * 60).

(** A usage that [refundServiceConsumption] accepts: it is stored under the
    id, its status is success and at most 24 hours passed since it was
    created. *)
Definition refundable (w : World) (serviceUsageId : Id) (usage : ServiceUsage) : Prop :=
  Db.usage_of serviceUsageId (db w) = Some usage /\
  su_status usage = usage_success /\
  now w - su_createdAt usage <= refund_window_ms.

(** The row [consumeService] records when it fails. *)
Definition failed_usage (w : World) (userId : Id) (key : string) (credits : Z)
    (details : option string) (errorMessage : string) : ServiceUsage :=
  {| su_id := next_uuid w; su_userId := userId; serviceKey := key;
     creditsUsed := credits; su_status := usage_failed;
     details := Some (ServiceModel.failure_details details errorMessage);
     su_createdAt := now w |}.

(** The two ledger invariants, and what holds between requests. *)
Definition ledger_consistent (seed : Z) (t : Tables) : Prop :=
  forall a, In a (user_accounts t) ->
            balance a = seed + ledger_sum (acc_userId a) t.

Definition rows_consistent (t : Tables) : Prop :=
  forall r, In r (credit_transactions t) ->
            previousBalance r + ct_amount r = currentBalance r.

Definition invariant (w : World) : Prop :=
  well_formed w /\ ledger_consistent 15 (db w) /\ rows_consistent (db w).

(** Newest first: no row is older than a row listed after it. *)
Definition newer_or_same {A : Type} (key : A -> Z) (a b : A) : Prop :=
  key b <= key a.

(** A registration collides with a stored user on the username, on the
    email, or on a phone number that both give. *)
Definition taken (t : Tables) (name mail : string) (tel : option string) : Prop :=
  exists x,
    In x (users t) /\
    (username x = name \/ email x = mail
     \/ exists p, tel = Some p /\ phone x = Some p).

(** Users and accounts match one to one, and no id, username or email is
    stored twice. *)
Definition directory_consistent (t : Tables) : Prop :=
  map user_id (users t) = map acc_userId (user_accounts t) /\
  NoDup (map user_id (users t)) /\
  NoDup (map username (users t)) /\
  NoDup (map email (users t)).

(** ** Worlds used in the examples *)

(** A database with one freshly registered user (id 0). *)
Definition signed_up : World :=
  world_after (UserModel.createUser "alice" "alice@example.com" "Passw0rd!" None
                 (initial_world 1000)).

(** The same after [createPayment(userId, 10, 'wechat')] (payment id 2). *)
Definition payment_created : Completion Payment * World :=
  PaymentModel.createPayment 0%nat 10 wechat None signed_up.

(** The same after [updateUserBalance(userId, -20, 'expiry')]. *)
Definition overdrawn : World :=
  world_after (AccountModel.updateUserBalance 0%nat (-20) expiry None None signed_up).

(** The same after [rewardCredits(userId, 7)]. *)
Definition rewarded : World :=
  perform (UpdateUserBalance 0%nat 7 reward (Some "welcome") None) signed_up.

(** A database with one successful usage of 5 credits (id 2) by user 0. *)
Definition used_once : World :=
  world_after (ServiceModel.createServiceUsage 0%nat "ai-image-edit" 5
                 usage_success None signed_up).

(** The world of [payment_created] after the gateway reported a failure. *)
Definition payment_failed : World :=
  world_after (PaymentModel.handlePaymentCallback 2%nat "txn1" false
                 (world_after payment_created)).

(** The world of [used_once] after the usage was refunded. *)
Definition refunded_once : World :=
  world_after (ServiceModel.refundServiceConsumption 2%nat None used_once).

(** ** Histories on safe integers *)

(** [Number.MAX_SAFE_INTEGER] *)
Definition max_safe_integer : Z := 2 ^ 53 - 1.

Definition safe_integer (z : Z) : bool :=
  (- max_safe_integer <=? z) && (z <=? max_safe_integer).

(** Every number stored in the tables is a safe integer. *)
Definition safe_tables (t : Tables) : bool :=
  forallb (fun a => safe_integer (balance a)) (user_accounts t)
  && forallb (fun r => safe_integer (ct_amount r)
                       && safe_integer (previousBalance r)
                       && safe_integer (currentBalance r))
       (credit_transactions t)
  && forallb (fun p => safe_integer (pay_amount p) && safe_integer (credits p))
       (payments t)
  && forallb (fun u => safe_integer (creditsUsed u)) (service_usages t).

(** Every number passed to the request is a safe integer. *)
Definition safe_call (c : Call) : bool :=
  match c with
  | UpdateUserBalance _ amount _ _ _ => safe_integer amount
  | CreatePayment _ amount _ rate =>
      safe_integer amount
      && safe_integer (match rate with Some r => r | None => 10 end)
  | CreateServiceUsage _ _ used _ _ => safe_integer used
  | ConsumeService _ _ used _ => safe_integer used
  | _ => true
  end.

(** The reachable worlds whose history stayed on safe integers: the
    numbers passed in and the numbers stored after each request are safe,
    so each number the code stored along the way is the exact sum,
    difference or product that the model computes, and each comparison of
    the code (a sum of two safe integers rounds to a double of the same
    sign) decided as in the model. *)
Inductive safely_reachable : World -> Prop :=
| safely_init : forall t0, safely_reachable (initial_world t0)
| safely_call : forall w c,
    safely_reachable w -> admissible c w ->
    safe_call c = true -> safe_tables (db (perform c w)) = true ->
    safely_reachable (perform c w)
| safely_clock : forall w t,
    safely_reachable w -> now w <= t -> safely_reachable (with_now t w).

(** The world in which [updatePaymentStatus(2, 'completed', 'txn1')] calls
    [depositCredits]: its transaction is open and the status of payment 2
    is updated (paymentModel.ts, up to the call). *)
Definition completing_payment : World :=
  world_after
    ((Db.BEGIN_TRANSACTION ;;;
      now <- Db.new_Date ;;
      Db.update (Db.map_payments
                   (PaymentModel.set_status 2%nat completed (Some "txn1") now)))
       (world_after payment_created)).

(** * Properties *)

(** ** Lists as tables *)

Lemma key_below_no_conflict :
  forall (A : Type) (key : A -> nat) (n : nat) (l : list A),
    forallb (fun x => Nat.ltb (key x) n) l = true ->
    existsb (fun x => Nat.eqb (key x) n) l = false.
Proof.
  intros A key n l. induction l as [|x l IH]; cbn [forallb existsb];
    [reflexivity|].
  intro H. apply andb_true_iff in H. destruct H as [Hx Hl].
  rewrite (IH Hl), orb_false_r.
  apply Nat.ltb_lt in Hx. apply Nat.eqb_neq. lia.
Qed.

Lemma key_below_weaken :
  forall (A : Type) (key : A -> nat) (n m : nat) (l : list A),
    (n <= m)%nat ->
    forallb (fun x => Nat.ltb (key x) n) l = true ->
    forallb (fun x => Nat.ltb (key x) m) l = true.
Proof.
  intros A key n m l Hnm H. rewrite forallb_forall in *.
  intros x Hx. specialize (H x Hx). apply Nat.ltb_lt in H. apply Nat.ltb_lt. lia.
Qed.

Lemma key_below_snoc :
  forall (A : Type) (key : A -> nat) (m : nat) (l : list A) (x : A),
    forallb (fun x => Nat.ltb (key x) m) l = true ->
    (key x < m)%nat ->
    forallb (fun x => Nat.ltb (key x) m) (l ++ [x]) = true.
Proof.
  intros A key m l x Hl Hx. rewrite forallb_app, Hl. cbn [forallb andb].
  apply Nat.ltb_lt in Hx. rewrite Hx. reflexivity.
Qed.

Lemma key_below_map :
  forall (A : Type) (key : A -> nat) (f : A -> A) (m : nat) (l : list A),
    (forall x, key (f x) = key x) ->
    forallb (fun x => Nat.ltb (key x) m) l = true ->
    forallb (fun x => Nat.ltb (key x) m) (map f l) = true.
Proof.
  intros A key f m l Hf. induction l as [|x l IH]; cbn [map forallb];
    [reflexivity|].
  intro H. apply andb_true_iff in H. destruct H as [Hx Hl].
  rewrite Hf, Hx, (IH Hl). reflexivity.
Qed.

Lemma find_map_same_key :
  forall (A : Type) (key : A -> nat) (f : A -> A) (k : nat) (l : list A) (x : A),
    (forall y, key (f y) = key y) ->
    find (fun y => Nat.eqb (key y) k) l = Some x ->
    find (fun y => Nat.eqb (key y) k) (map f l) = Some (f x).
Proof.
  intros A key f k l x Hf. induction l as [|y l IH]; cbn [map find];
    [discriminate|].
  rewrite Hf. destruct (Nat.eqb (key y) k); [congruence|exact IH].
Qed.

Lemma find_key :
  forall (A : Type) (key : A -> nat) (k : nat) (l : list A) (x : A),
    find (fun y => Nat.eqb (key y) k) l = Some x -> In x l /\ key x = k.
Proof.
  intros A key k l x H. apply find_some in H. destruct H as [Hin Hk].
  split; [exact Hin|]. apply Nat.eqb_eq. exact Hk.
Qed.

Lemma set_balance_key :
  forall userId b ts a,
    acc_userId (AccountModel.set_balance userId b ts a) = acc_userId a.
Proof.
  intros userId b ts a. unfold AccountModel.set_balance.
  destruct (Nat.eqb (acc_userId a) userId); reflexivity.
Qed.

Lemma add_balance_key :
  forall userId d ts a,
    acc_userId (ServiceModel.add_balance userId d ts a) = acc_userId a.
Proof.
  intros userId d ts a. unfold ServiceModel.add_balance.
  destruct (Nat.eqb (acc_userId a) userId); reflexivity.
Qed.

Lemma set_usage_status_key :
  forall id st u, su_id (ServiceModel.set_usage_status id st u) = su_id u.
Proof.
  intros id st u. unfold ServiceModel.set_usage_status.
  destruct (Nat.eqb (su_id u) id); reflexivity.
Qed.

Lemma set_status_key :
  forall id st tx ts p, pay_id (PaymentModel.set_status id st tx ts p) = pay_id p.
Proof.
  intros id st tx ts p. unfold PaymentModel.set_status.
  destruct (Nat.eqb (pay_id p) id); reflexivity.
Qed.

Lemma ids_below_tables :
  forall n t,
    ids_below n t = true <->
    forallb (fun u => Nat.ltb (user_id u) n) (users t) = true /\
    forallb (fun a => Nat.ltb (acc_userId a) n) (user_accounts t) = true /\
    forallb (fun r => Nat.ltb (ct_id r) n) (credit_transactions t) = true /\
    forallb (fun p => Nat.ltb (pay_id p) n) (payments t) = true /\
    forallb (fun u => Nat.ltb (su_id u) n) (service_usages t) = true.
Proof.
  intros n t. unfold ids_below. rewrite !andb_true_iff. tauto.
Qed.

Lemma well_formed_transaction_id :
  forall w row,
    well_formed w -> ct_id row = next_uuid w ->
    Db.transaction_conflict row (db w) = false.
Proof.
  intros w row [_ H] Hid. apply ids_below_tables in H.
  unfold Db.transaction_conflict. rewrite Hid.
  apply key_below_no_conflict. tauto.
Qed.

Lemma well_formed_usage_id :
  forall w usage,
    well_formed w -> su_id usage = next_uuid w ->
    Db.usage_conflict usage (db w) = false.
Proof.
  intros w usage [_ H] Hid. apply ids_below_tables in H.
  unfold Db.usage_conflict. rewrite Hid.
  apply key_below_no_conflict. tauto.
Qed.

Lemma well_formed_payment_id :
  forall w payment,
    well_formed w -> pay_id payment = next_uuid w ->
    Db.payment_conflict payment (db w) = false.
Proof.
  intros w payment [_ H] Hid. apply ids_below_tables in H.
  unfold Db.payment_conflict. rewrite Hid.
  apply key_below_no_conflict. tauto.
Qed.

Lemma account_after_set_balance :
  forall userId b ts t account,
    Db.account_of userId t = Some account ->
    Db.account_of userId (Db.map_accounts (AccountModel.set_balance userId b ts) t)
    = Some {| acc_userId := acc_userId account; balance := b; lastUpdated := ts |}.
Proof.
  intros userId b ts t account H. unfold Db.account_of in *; cbn.
  rewrite (find_map_same_key _ acc_userId _ _ _ _ (set_balance_key userId b ts) H).
  apply find_key in H. destruct H as [_ Hk].
  unfold AccountModel.set_balance. rewrite Hk, Nat.eqb_refl. reflexivity.
Qed.


Lemma usage_after_set_status :
  forall id st t usage,
    Db.usage_of id t = Some usage ->
    Db.usage_of id (Db.map_usages (ServiceModel.set_usage_status id st) t)
    = Some {| su_id := su_id usage; su_userId := su_userId usage;
              serviceKey := serviceKey usage; creditsUsed := creditsUsed usage;
              su_status := st; details := details usage;
              su_createdAt := su_createdAt usage |}.
Proof.
  intros id st t usage H. unfold Db.usage_of in *; cbn.
  rewrite (find_map_same_key _ su_id _ _ _ _ (set_usage_status_key id st) H).
  apply find_key in H. destruct H as [_ Hk].
  unfold ServiceModel.set_usage_status. rewrite Hk, Nat.eqb_refl. reflexivity.
Qed.

Lemma account_of_key :
  forall userId t account,
    Db.account_of userId t = Some account ->
    In account (user_accounts t) /\ acc_userId account = userId.
Proof. intros userId t account H. exact (find_key _ acc_userId _ _ _ H). Qed.

Lemma usage_of_key :
  forall id t usage,
    Db.usage_of id t = Some usage ->
    In usage (service_usages t) /\ su_id usage = id.
Proof. intros id t usage H. exact (find_key _ su_id _ _ _ H). Qed.

Lemma payment_of_key :
  forall id t payment,
    Db.payment_of id t = Some payment ->
    In payment (payments t) /\ pay_id payment = id.
Proof. intros id t payment H. exact (find_key _ pay_id _ _ _ H). Qed.

(** ** What each model function computes *)

#[local] Opaque Db.account_of Db.payment_of Db.usage_of.

Ltac world_cases w :=
  destruct w as [tables txn clock uuid]; unfold idle in *; cbn in *; subst.

Ltac exec :=
  repeat (progress (unfold bind, try_catch, ret, throw, Db.select, Db.update,
                      Db.insert, Db.BEGIN_TRANSACTION, Db.COMMIT, Db.ROLLBACK,
                      Db.new_Date, Db.randomUUID, with_db, with_txn;
                    cbn)).

(** Called while a transaction is open on the connection,
    [updateUserBalance] throws at its own BEGIN, which is outside its [try],
    and writes nothing. *)
Lemma updateUserBalance_nested :
  forall w saved userId amount type description relatedOrder,
    open_txn w = Some saved ->
    AccountModel.updateUserBalance userId amount type description relatedOrder w
    = (Throw Db.nested_begin_error, w).
Proof.
  intros w saved userId amount type description relatedOrder H.
  unfold AccountModel.updateUserBalance, bind, Db.BEGIN_TRANSACTION.
  rewrite H. reflexivity.
Qed.

(** On an idle connection [updateUserBalance] has four outcomes. *)
Lemma updateUserBalance_idle :
  forall w userId amount type description relatedOrder,
    idle w ->
    AccountModel.updateUserBalance userId amount type description relatedOrder w
    = match Db.account_of userId (db w) with
      | None => (Normal false, w)
      | Some account =>
        if is_withdrawal type && (balance account + amount <? 0)
        then (Normal false, w)
        else
          let row := audit_row w userId amount type description relatedOrder
                       (balance account) in
          if Db.transaction_conflict row (db w)
          then (Normal false,
                {| db := db w; open_txn := None; now := now w;
                   next_uuid := S (next_uuid w) |})
          else (Normal true,
                {| db := Db.add_transaction row
                           (Db.map_accounts
                              (AccountModel.set_balance userId
                                 (balance account + amount) (now w)) (db w));
                   open_txn := None; now := now w;
                   next_uuid := S (next_uuid w) |})
      end.
Proof.
  intros w userId amount type description relatedOrder H.
  world_cases w.
  unfold AccountModel.updateUserBalance, bind, try_catch, Db.BEGIN_TRANSACTION,
    Db.select, throw; cbn.
  destruct (Db.account_of userId tables) as [account|]; cbn; [|reflexivity].
  destruct (is_withdrawal type && (balance account + amount <? 0)); cbn;
    [reflexivity|].
  unfold Db.insert, audit_row, Db.transaction_conflict; cbn.
  destruct (existsb _ (credit_transactions tables)); reflexivity.
Qed.

Lemma createServiceUsage_run :
  forall w userId key used status details,
    ServiceModel.createServiceUsage userId key used status details w
    = let usage := {| su_id := next_uuid w; su_userId := userId;
                      serviceKey := key; creditsUsed := used;
                      su_status := status; details := details;
                      su_createdAt := now w |} in
      if Db.usage_conflict usage (db w)
      then (Throw "SQLITE_CONSTRAINT: UNIQUE constraint failed", bump 1 w)
      else (Normal usage, with_db (Db.add_usage usage (db w)) (bump 1 w)).
Proof.
  intros [tables txn clock uuid] userId key used status details.
  unfold ServiceModel.createServiceUsage, bind, Db.insert, bump, with_db; cbn.
  destruct (Db.usage_conflict _ tables); reflexivity.
Qed.

Lemma createPayment_run :
  forall w userId amount method rate,
    PaymentModel.createPayment userId amount method rate w
    = let payment := {| pay_id := next_uuid w; pay_userId := userId;
                        pay_amount := amount;
                        credits := amount * match rate with Some r => r | None => 10 end;
                        pay_status := pending; method := method;
                        transactionId := None;
                        pay_createdAt := now w; pay_updatedAt := now w |} in
      if Db.payment_conflict payment (db w)
      then (Throw "SQLITE_CONSTRAINT: UNIQUE constraint failed", bump 1 w)
      else (Normal payment, with_db (Db.add_payment payment (db w)) (bump 1 w)).
Proof.
  intros [tables txn clock uuid] userId amount method rate.
  unfold PaymentModel.createPayment, bind, Db.insert, bump, with_db; cbn.
  destruct (Db.payment_conflict _ tables); reflexivity.
Qed.

Lemma createUser_run :
  forall w name mail password phone,
    UserModel.createUser name mail password phone w
    = let user := {| user_id := next_uuid w; username := name; email := mail;
                     phone := phone; isVerified := true;
                     user_createdAt := now w; user_updatedAt := now w |} in
      let account := {| acc_userId := next_uuid w; balance := 15;
                        lastUpdated := now w |} in
      if Db.user_conflict user (db w)
      then (Throw "SQLITE_CONSTRAINT: UNIQUE constraint failed", bump 2 w)
      else if Db.account_conflict account (db w)
      then (Throw "SQLITE_CONSTRAINT: UNIQUE constraint failed",
            with_db (Db.add_user user (db w)) (bump 2 w))
      else (Normal user,
            with_db (Db.add_account account (Db.add_user user (db w))) (bump 2 w)).
Proof.
  intros [tables txn clock uuid] name mail password phone.
  unfold UserModel.createUser, bind, Db.insert, bump, with_db; cbn.
  destruct (Db.user_conflict _ tables); [reflexivity|].
  unfold Db.account_conflict; cbn.
  destruct (existsb _ (user_accounts tables)); reflexivity.
Qed.

(** Completing a payment calls [depositCredits] while the transaction of
    [updatePaymentStatus] is open, so the deposit throws and the status
    change is rolled back. *)
Lemma updatePaymentStatus_idle :
  forall w paymentId status txid,
    idle w ->
    PaymentModel.updatePaymentStatus paymentId status txid w
    = match Db.payment_of paymentId (db w) with
      | None => (Normal false, w)
      | Some payment =>
        if negb (is_pending (pay_status payment)) then (Normal false, w)
        else if is_completed status then (Normal false, w)
        else (Normal true,
              with_db (Db.map_payments
                         (PaymentModel.set_status paymentId status txid (now w))
                         (db w)) w)
      end.
Proof.
  intros w paymentId status txid H.
  world_cases w.
  unfold PaymentModel.updatePaymentStatus, PaymentModel.getPaymentById, bind,
    try_catch, Db.BEGIN_TRANSACTION, Db.select, throw; cbn.
  destruct (Db.payment_of paymentId tables) as [payment|]; cbn; [|reflexivity].
  destruct (is_pending (pay_status payment)); cbn; [|reflexivity].
  destruct (is_completed status); reflexivity.
Qed.

(** [consumeService] opens a transaction and then calls [withdrawCredits],
    which opens its own: the withdrawal throws for every sufficient
    balance. *)
Lemma consumeService_idle :
  forall w userId key credits details,
    idle w ->
    ServiceModel.consumeService userId key credits details w
    = match Db.account_of userId (db w) with
      | None => consume_failure userId key credits details "Insufficient balance" w
      | Some account =>
        if credits <=? balance account
        then consume_failure userId key credits details Db.nested_begin_error w
        else consume_failure userId key credits details "Insufficient balance" w
      end.
Proof.
  intros w userId key credits details H.
  world_cases w.
  unfold ServiceModel.consumeService, AccountModel.checkBalance,
    AccountModel.getUserAccount, consume_failure, bump; exec.
  destruct (Db.account_of userId tables) as [account|]; exec.
  - destruct (credits <=? balance account); exec;
      unfold Db.usage_conflict; exec;
      destruct (existsb _ (service_usages tables)); reflexivity.
  - unfold Db.usage_conflict; exec;
      destruct (existsb _ (service_usages tables)); reflexivity.
Qed.

(** The refund test [hoursDiff > 24] is a comparison of milliseconds. *)
Lemma hoursDiff_gt_24 :
  forall timeDiff,
    negb (Qle_bool (ServiceModel.hoursDiff timeDiff) (inject_Z 24))
    = (refund_window_ms <? timeDiff).
Proof.
  intro timeDiff.
  unfold ServiceModel.hoursDiff, Qle_bool, Qdiv, Qmult, Qinv, inject_Z,
    refund_window_ms; cbn.
  rewrite Z.ltb_antisym. f_equal.
  destruct (Z.leb_spec (timeDiff * 1 * 1) 86400000);
    destruct (Z.leb_spec timeDiff 86400000); try reflexivity; lia.
Qed.

Lemma refundServiceConsumption_idle :
  forall w serviceUsageId reason,
    idle w ->
    ServiceModel.refundServiceConsumption serviceUsageId reason w
    = match Db.usage_of serviceUsageId (db w) with
      | None => (Normal false, w)
      | Some usage =>
        if negb (is_usage_success (su_status usage)) then (Normal false, w)
        else if refund_window_ms <? now w - su_createdAt usage
        then (Normal false, w)
        else
          let row := refund_row w serviceUsageId reason usage in
          if Db.transaction_conflict row (db w)
          then (Normal false, bump 1 w)
          else (Normal true,
                with_db (Db.add_transaction row
                           (Db.map_usages
                              (ServiceModel.set_usage_status serviceUsageId
                                 usage_refunded)
                              (Db.map_accounts
                                 (ServiceModel.add_balance (su_userId usage)
                                    (creditsUsed usage) (now w)) (db w))))
                  (bump 1 w))
      end.
Proof.
  intros w serviceUsageId reason H.
  world_cases w.
  unfold ServiceModel.refundServiceConsumption, bump; exec.
  destruct (Db.usage_of serviceUsageId tables) as [usage|]; exec; [|reflexivity].
  destruct (su_status usage); exec; try reflexivity.
  rewrite hoursDiff_gt_24. unfold refund_window_ms; cbn.
  destruct (86400000 <? clock - su_createdAt usage); exec; [reflexivity|].
  unfold Db.transaction_conflict, refund_row; exec.
  destruct (existsb _ (credit_transactions tables)); reflexivity.
Qed.

(** ** The ledger operation *)

Lemma withdrawal_guard :
  forall type x,
    is_withdrawal type && (x <? 0) = true <-> type = withdrawal /\ x < 0.
Proof.
  intros type x. rewrite andb_true_iff, Z.ltb_lt.
  destruct type; cbn; intuition (congruence || discriminate).
Qed.

(** The two writes are one transaction: on an idle connection, whatever
    makes the call fail (missing account, refused withdrawal, a rejected
    INSERT), it returns [false] with the tables as they were; it returns
    [true] only with both the balance and the audit row written. *)
Lemma updateUserBalance_all_or_nothing :
  forall w userId amount type description relatedOrder,
    idle w ->
    let run := AccountModel.updateUserBalance userId amount type description
                 relatedOrder w in
    (result run = Normal false /\ db (world_after run) = db w)
    \/
    (result run = Normal true /\
     exists account,
       Db.account_of userId (db w) = Some account /\
       db (world_after run)
       = Db.add_transaction
           (audit_row w userId amount type description relatedOrder
              (balance account))
           (Db.map_accounts
              (AccountModel.set_balance userId (balance account + amount) (now w))
              (db w))).
Proof.
  intros w userId amount type description relatedOrder Hidle run. subst run.
  rewrite (updateUserBalance_idle w userId amount type description relatedOrder
             Hidle).
  destruct (Db.account_of userId (db w)) as [account|]; [|left; split; reflexivity].
  destruct (is_withdrawal type && (balance account + amount <? 0));
    [left; split; reflexivity|].
  cbv zeta.
  destruct (Db.transaction_conflict _ (db w)); [left; split; reflexivity|].
  right. split; [reflexivity|]. exists account. split; reflexivity.
Qed.

(** Between requests (no transaction open on the connection, the UUID
    counter ahead of the stored ids) a call of [updateUserBalance] on an
    existing account either fails the withdrawal guard ([type = withdrawal]
    and [previous + amount < 0]), returning [false] and leaving the database
    as it was, or sets the balance to [previous + amount] and appends
    exactly one audit row; a withdrawal that returns [true] leaves a balance
    that is not negative.  The calls of [deductCredits] in the routes are
    such calls; the calls made by [updatePaymentStatus] and
    [consumeService] are made inside a transaction and throw. *)
Theorem updateUserBalance_guarded_atomic :
  forall w userId amount type description relatedOrder account,
    well_formed w ->
    Db.account_of userId (db w) = Some account ->
    let run := AccountModel.updateUserBalance userId amount type description
                 relatedOrder w in
    let w' := world_after run in
    let previous := balance account in
    (type = withdrawal /\ previous + amount < 0 ->
       result run = Normal false /\ db w' = db w)
    /\
    (~ (type = withdrawal /\ previous + amount < 0) ->
       result run = Normal true /\
       user_accounts (db w')
       = map (AccountModel.set_balance userId (previous + amount) (now w))
           (user_accounts (db w)) /\
       Db.account_of userId (db w')
       = Some {| acc_userId := userId; balance := previous + amount;
                 lastUpdated := now w |} /\
       credit_transactions (db w')
       = (credit_transactions (db w)
          ++ [audit_row w userId amount type description relatedOrder previous])%list)
    /\
    ((user_accounts (db w') = user_accounts (db w) /\
      credit_transactions (db w') = credit_transactions (db w))
     \/
     (Db.account_of userId (db w')
      = Some {| acc_userId := userId; balance := previous + amount;
                lastUpdated := now w |} /\
      credit_transactions (db w')
      = (credit_transactions (db w)
         ++ [audit_row w userId amount type description relatedOrder previous])%list))
    /\
    (result run = Normal true -> type = withdrawal ->
     forall account',
       Db.account_of userId (db w') = Some account' -> 0 <= balance account')
    /\ idle w'.
Proof.
  intros w userId amount type description relatedOrder account Hwf Hacc
    run w' previous.
  assert (Hkey : acc_userId account = userId).
  { apply account_of_key in Hacc. tauto. }
  assert (Hnew : Db.account_of userId
                   (Db.add_transaction
                      (audit_row w userId amount type description relatedOrder
                         previous)
                      (Db.map_accounts
                         (AccountModel.set_balance userId (previous + amount)
                            (now w)) (db w)))
                 = Some {| acc_userId := userId; balance := previous + amount;
                           lastUpdated := now w |}).
  { rewrite <- Hkey at 4.
    apply (account_after_set_balance userId (previous + amount) (now w) (db w)
             account Hacc). }
  subst w' run.
  rewrite (updateUserBalance_idle w userId amount type description relatedOrder
             (proj1 Hwf)), Hacc.
  cbv zeta. fold previous.
  rewrite (well_formed_transaction_id w
             (audit_row w userId amount type description relatedOrder previous)
             Hwf eq_refl).
  destruct (is_withdrawal type && (previous + amount <? 0)) eqn:G.
  - apply withdrawal_guard in G. cbn.
    split; [intros _; split; reflexivity|].
    split; [intro H; exfalso; exact (H G)|].
    split; [left; split; reflexivity|].
    split; [discriminate|exact (proj1 Hwf)].
  - assert (G' : ~ (type = withdrawal /\ previous + amount < 0)).
    { intro H. apply withdrawal_guard in H. congruence. }
    cbn.
    split; [intro H; exfalso; exact (G' H)|].
    split; [intros _; repeat split; exact Hnew|].
    split; [right; split; [exact Hnew|reflexivity]|].
    split; [|reflexivity].
    intros _ Hty account' Hacc'.
    assert (Hge : ~ previous + amount < 0) by tauto.
    cbn in Hnew. rewrite Hnew in Hacc'. injection Hacc' as <-. cbn. lia.
Qed.

Lemma updateUserBalance_guarded_atomic_witness :
  well_formed signed_up /\
  Db.account_of 0%nat (db signed_up)
  = Some {| acc_userId := 0%nat; balance := 15; lastUpdated := 1000 |} /\
  result (AccountModel.updateUserBalance 0%nat (-20) withdrawal None None signed_up)
  = Normal false /\
  result (AccountModel.updateUserBalance 0%nat (-5) withdrawal None None signed_up)
  = Normal true.
Proof.
  assert (W : well_formed signed_up) by (split; reflexivity).
  assert (A : Db.account_of 0%nat (db signed_up)
              = Some {| acc_userId := 0%nat; balance := 15; lastUpdated := 1000 |})
    by reflexivity.
  split; [exact W|]. split; [exact A|]. split.
  - apply (updateUserBalance_guarded_atomic signed_up 0%nat (-20) withdrawal
             None None _ W A).
    split; [reflexivity|cbn; lia].
  - apply (updateUserBalance_guarded_atomic signed_up 0%nat (-5) withdrawal
             None None _ W A).
    intros [_ H]. cbn in H. lia.
Defined.

(** C1. The [depositCredits] call of [updatePaymentStatus]
    (paymentModel.ts:129) is a call of [updateUserBalance] of type deposit
    on an existing account, made inside the transaction that
    [updatePaymentStatus] has opened on the shared connection.  It neither
    returns [false] nor sets the balance to [previous + amount]: it throws
    at its own BEGIN TRANSACTION, the account keeps its 15 credits and no
    audit row is written.  [updatePaymentStatus] catches the error, rolls
    its status update back and returns [false]. *)
Theorem updateUserBalance_inside_transaction :
  let description := Some ("充值" ++ number_to_string 100 ++ "积分") in
  let run := AccountModel.depositCredits 0%nat 100 (Some 2%nat) description
               completing_payment in
  let w' := world_after run in
  Db.account_of 0%nat (db completing_payment)
  = Some {| acc_userId := 0%nat; balance := 15; lastUpdated := 1000 |} /\
  option_map (fun p => (pay_userId p, credits p, pay_status p))
    (Db.payment_of 2%nat (db completing_payment))
  = Some (0%nat, 100, completed) /\
  open_txn completing_payment = Some (db (world_after payment_created)) /\
  run = (Throw Db.nested_begin_error, completing_payment) /\
  Db.account_of 0%nat (db w')
  = Some {| acc_userId := 0%nat; balance := 15; lastUpdated := 1000 |} /\
  credit_transactions (db w') = [] /\
  PaymentModel.updatePaymentStatus 2%nat completed (Some "txn1")
    (world_after payment_created)
  = (Db.ROLLBACK ;;; ret false) w' /\
  PaymentModel.updatePaymentStatus 2%nat completed (Some "txn1")
    (world_after payment_created)
  = (Normal false, world_after payment_created).
Proof.
  cbv zeta. repeat split; vm_compute; reflexivity.
Qed.

(** Between requests the guard is for withdrawals only: a call of type
    deposit, reward or expiry on an existing account returns [true], writes
    the balance [previous + amount] and appends the audit row, also when
    that balance is negative.  The program makes no such call between
    requests: its one call of these types is made inside a transaction. *)
Theorem updateUserBalance_unguarded_types :
  forall w userId amount type description relatedOrder account,
    well_formed w ->
    Db.account_of userId (db w) = Some account ->
    type = deposit \/ type = reward \/ type = expiry ->
    let run := AccountModel.updateUserBalance userId amount type description
                 relatedOrder w in
    let w' := world_after run in
    let previous := balance account in
    result run = Normal true /\
    idle w' /\
    Db.account_of userId (db w')
    = Some {| acc_userId := userId; balance := previous + amount;
              lastUpdated := now w |} /\
    credit_transactions (db w')
    = (credit_transactions (db w)
       ++ [audit_row w userId amount type description relatedOrder previous])%list /\
    (previous + amount < 0 ->
     exists account',
       Db.account_of userId (db w') = Some account' /\ balance account' < 0).
Proof.
  intros w userId amount type description relatedOrder account Hwf Hacc Hty
    run w' previous.
  assert (Hkey : acc_userId account = userId).
  { apply account_of_key in Hacc. tauto. }
  assert (Hnew : Db.account_of userId
                   (Db.add_transaction
                      (audit_row w userId amount type description relatedOrder
                         previous)
                      (Db.map_accounts
                         (AccountModel.set_balance userId (previous + amount)
                            (now w)) (db w)))
                 = Some {| acc_userId := userId; balance := previous + amount;
                           lastUpdated := now w |}).
  { rewrite <- Hkey at 4.
    apply (account_after_set_balance userId (previous + amount) (now w) (db w)
             account Hacc). }
  subst w' run.
  rewrite (updateUserBalance_idle w userId amount type description relatedOrder
             (proj1 Hwf)), Hacc.
  cbv zeta. fold previous.
  rewrite (well_formed_transaction_id w
             (audit_row w userId amount type description relatedOrder previous)
             Hwf eq_refl).
  assert (G : is_withdrawal type = false).
  { destruct Hty as [-> | [-> | ->]]; reflexivity. }
  rewrite G. cbn.
  repeat split; try exact Hnew.
  intros Hneg. eexists. split; [exact Hnew|exact Hneg].
Qed.

Lemma updateUserBalance_unguarded_types_witness :
  well_formed signed_up /\
  result (AccountModel.updateUserBalance 0%nat (-20) expiry None None signed_up)
  = Normal true /\
  Db.account_of 0%nat (db overdrawn)
  = Some {| acc_userId := 0%nat; balance := -5; lastUpdated := 1000 |}.
Proof.
  assert (W : well_formed signed_up) by (split; reflexivity).
  assert (A : Db.account_of 0%nat (db signed_up)
              = Some {| acc_userId := 0%nat; balance := 15; lastUpdated := 1000 |})
    by reflexivity.
  pose proof (updateUserBalance_unguarded_types signed_up 0%nat (-20) expiry
                None None _ W A (or_intror (or_intror eq_refl))) as H.
  cbv zeta in H. destruct H as (Hres & _ & Hbal & _).
  split; [exact W|]. split; [exact Hres|exact Hbal].
Defined.

(** C9. The one call of [updateUserBalance] that the program makes with a
    type other than withdrawal is the [depositCredits] call of
    [updatePaymentStatus] (paymentModel.ts:129), made inside the
    transaction of [updatePaymentStatus].  There the call does not succeed,
    whatever the amount and whichever the type: it throws at its own BEGIN
    TRANSACTION and commits neither a balance nor an audit row; in
    particular an amount that would take the balance of 15 below zero
    leaves it at 15. *)
Theorem unguarded_types_inside_transaction :
  AccountModel.depositCredits 0%nat 100 (Some 2%nat)
    (Some ("充值" ++ number_to_string 100 ++ "积分"))
  = AccountModel.updateUserBalance 0%nat 100 deposit
      (Some ("充值" ++ number_to_string 100 ++ "积分")) (Some 2%nat) /\
  Db.account_of 0%nat (db completing_payment)
  = Some {| acc_userId := 0%nat; balance := 15; lastUpdated := 1000 |} /\
  forall amount type description relatedOrder,
    let run := AccountModel.updateUserBalance 0%nat amount type description
                 relatedOrder completing_payment in
    let w' := world_after run in
    result run = Throw Db.nested_begin_error /\
    result run <> Normal true /\
    w' = completing_payment /\
    Db.account_of 0%nat (db w')
    = Some {| acc_userId := 0%nat; balance := 15; lastUpdated := 1000 |} /\
    credit_transactions (db w') = [].
Proof.
  split; [reflexivity|]. split; [vm_compute; reflexivity|].
  intros amount type description relatedOrder run w'. subst w' run.
  rewrite (updateUserBalance_nested completing_payment
             (db (world_after payment_created)) 0%nat amount type description
             relatedOrder) by (vm_compute; reflexivity).
  unfold result, world_after; cbn [fst snd].
  split; [reflexivity|]. split; [discriminate|]. split; [reflexivity|].
  split; vm_compute; reflexivity.
Qed.

(** ** Service consumption *)

(** C6. With [credits] above the balance of the user's account,
    [consumeService] returns [{success: false, message: 'Insufficient
    balance'}], leaves the accounts and the audit log as they were, and
    records exactly one usage row, of status failed, whose details carry the
    reason. *)
Theorem consumeService_insufficient_balance :
  forall w userId key credits detail account,
    well_formed w ->
    Db.account_of userId (db w) = Some account ->
    balance account < credits ->
    let run := ServiceModel.consumeService userId key credits detail w in
    let w' := world_after run in
    result run
    = Normal {| ServiceModel.success := false;
                ServiceModel.message := Some "Insufficient balance";
                ServiceModel.serviceUsage := None |} /\
    user_accounts (db w') = user_accounts (db w) /\
    credit_transactions (db w') = credit_transactions (db w) /\
    service_usages (db w')
    = (service_usages (db w)
       ++ [failed_usage w userId key credits detail "Insufficient balance"])%list /\
    su_status (failed_usage w userId key credits detail "Insufficient balance")
    = usage_failed /\
    details (failed_usage w userId key credits detail "Insufficient balance")
    = Some (match detail with Some d => d | None => "" end
            ++ " - Error: Insufficient balance") /\
    idle w'.
Proof.
  intros w userId key credits detail account Hwf Hacc Hlt run w'.
  subst w' run.
  rewrite (consumeService_idle w userId key credits detail (proj1 Hwf)), Hacc.
  destruct (Z.leb_spec credits (balance account)) as [Hle|_]; [lia|].
  unfold consume_failure.
  rewrite (well_formed_usage_id w
             {| su_id := next_uuid w; su_userId := userId; serviceKey := key;
                creditsUsed := credits; su_status := usage_failed;
                details := Some (ServiceModel.failure_details detail
                                   "Insufficient balance");
                su_createdAt := now w |} Hwf eq_refl).
  cbn. repeat split. exact (proj1 Hwf).
Qed.

Lemma consumeService_insufficient_balance_witness :
  well_formed signed_up /\
  result (ServiceModel.consumeService 0%nat "ai-image-edit" 50 (Some "edit") signed_up)
  = Normal {| ServiceModel.success := false;
              ServiceModel.message := Some "Insufficient balance";
              ServiceModel.serviceUsage := None |}.
Proof.
  assert (W : well_formed signed_up) by (split; reflexivity).
  assert (A : Db.account_of 0%nat (db signed_up)
              = Some {| acc_userId := 0%nat; balance := 15; lastUpdated := 1000 |})
    by reflexivity.
  split; [exact W|].
  apply (consumeService_insufficient_balance signed_up 0%nat "ai-image-edit" 50
           (Some "edit") _ W A).
  cbn. lia.
Defined.

(** The withdrawal inside [consumeService] never runs: for every balance
    that covers [credits] the call reports the nested BEGIN as its failure
    and the ledger is left as it was. *)
Lemma consumeService_sufficient_balance :
  forall w userId key credits details account,
    well_formed w ->
    Db.account_of userId (db w) = Some account ->
    credits <= balance account ->
    let run := ServiceModel.consumeService userId key credits details w in
    let w' := world_after run in
    result run
    = Normal {| ServiceModel.success := false;
                ServiceModel.message := Some Db.nested_begin_error;
                ServiceModel.serviceUsage := None |} /\
    user_accounts (db w') = user_accounts (db w) /\
    credit_transactions (db w') = credit_transactions (db w) /\
    service_usages (db w')
    = (service_usages (db w)
       ++ [failed_usage w userId key credits details Db.nested_begin_error])%list.
Proof.
  intros w userId key credits details account Hwf Hacc Hle run w'.
  subst w' run.
  rewrite (consumeService_idle w userId key credits details (proj1 Hwf)), Hacc.
  destruct (Z.leb_spec credits (balance account)) as [_|Hlt]; [|lia].
  unfold consume_failure.
  rewrite (well_formed_usage_id w
             {| su_id := next_uuid w; su_userId := userId; serviceKey := key;
                creditsUsed := credits; su_status := usage_failed;
                details := Some (ServiceModel.failure_details details
                                   Db.nested_begin_error);
                su_createdAt := now w |} Hwf eq_refl).
  cbn. repeat split.
Qed.

(** C7. Evaluation of the scenario: a user is created (balance 15) and
    [consumeService(userId, 'ai-image-edit', 5)] is called.  The call
    returns [success: false], the balance stays 15, no credit transaction is
    written and the one usage row recorded has status failed. *)
Theorem consumeService_after_signup :
  let run := ServiceModel.consumeService 0%nat "ai-image-edit" 5 None signed_up in
  let w' := world_after run in
  Db.account_of 0%nat (db signed_up)
  = Some {| acc_userId := 0%nat; balance := 15; lastUpdated := 1000 |} /\
  result run
  = Normal {| ServiceModel.success := false;
              ServiceModel.message := Some Db.nested_begin_error;
              ServiceModel.serviceUsage := None |} /\
  Db.account_of 0%nat (db w')
  = Some {| acc_userId := 0%nat; balance := 15; lastUpdated := 1000 |} /\
  credit_transactions (db w') = [] /\
  map su_status (service_usages (db w')) = [usage_failed].
Proof. cbv zeta. repeat split. Qed.

(** The direct ledger call that the routes use does withdraw: on the same
    world [deductCredits(userId, 5)] leaves 10 and one withdrawal of -5. *)
Lemma deductCredits_after_signup :
  let run := AccountModel.deductCredits 0%nat 5 None None signed_up in
  let w' := world_after run in
  result run = Normal true /\
  Db.account_of 0%nat (db w')
  = Some {| acc_userId := 0%nat; balance := 10; lastUpdated := 1000 |} /\
  map (fun r => (ct_type r, ct_amount r)) (credit_transactions (db w'))
  = [(withdrawal, -5)].
Proof. cbv zeta. repeat split. Qed.

(** ** Refunds *)




(** ** Payments *)

(** [createPayment] with the default rate stores a pending payment worth ten
    credits per currency unit. *)
Lemma createPayment_default_rate :
  forall w userId amount method,
    well_formed w ->
    let run := PaymentModel.createPayment userId amount method None w in
    exists payment,
      result run = Normal payment /\
      pay_id payment = next_uuid w /\
      pay_userId payment = userId /\
      credits payment = amount * 10 /\
      pay_status payment = pending /\
      payments (db (world_after run)) = (payments (db w) ++ [payment])%list.
Proof.
  intros w userId amount method Hwf run. subst run.
  rewrite createPayment_run. cbv zeta.
  rewrite (well_formed_payment_id w
             {| pay_id := next_uuid w; pay_userId := userId; pay_amount := amount;
                credits := amount * 10; pay_status := pending; method := method;
                transactionId := None;
                pay_createdAt := now w; pay_updatedAt := now w |} Hwf eq_refl).
  eexists. cbn. repeat split.
Qed.

(** A payment is never completed: the deposit throws inside the open
    transaction, the status change is rolled back and the call returns
    [false] with the world as it was. *)
Lemma updatePaymentStatus_completed_fails :
  forall w paymentId txid,
    idle w ->
    PaymentModel.updatePaymentStatus paymentId completed txid w = (Normal false, w).
Proof.
  intros w paymentId txid H.
  rewrite (updatePaymentStatus_idle w paymentId completed txid H).
  destruct (Db.payment_of paymentId (db w)) as [payment|]; [|reflexivity].
  destruct (negb (is_pending (pay_status payment))); reflexivity.
Qed.

(** A payment whose status is not pending is left alone. *)
Lemma updatePaymentStatus_settled :
  forall w paymentId status txid payment,
    idle w ->
    Db.payment_of paymentId (db w) = Some payment ->
    pay_status payment <> pending ->
    PaymentModel.updatePaymentStatus paymentId status txid w = (Normal false, w).
Proof.
  intros w paymentId status txid payment H Hp Hs.
  rewrite (updatePaymentStatus_idle w paymentId status txid H), Hp.
  destruct (pay_status payment); cbn; congruence.
Qed.

(** C8. Evaluation of the scenario: [createPayment(userId, 10, 'wechat')]
    returns a pending payment with 100 credits; the callback with
    [success = true] for it returns [false], the payment is still pending,
    the balance is still 15 and no deposit row exists. *)
Theorem payment_completion_scenario :
  let w1 := world_after payment_created in
  let run := PaymentModel.handlePaymentCallback 2%nat "txn1" true w1 in
  let w2 := world_after run in
  (exists payment,
     result payment_created = Normal payment /\
     pay_id payment = 2%nat /\ credits payment = 100 /\
     pay_status payment = pending /\
     Db.payment_of 2%nat (db w1) = Some payment) /\
  result run = Normal false /\
  (exists payment,
     Db.payment_of 2%nat (db w2) = Some payment /\ pay_status payment = pending) /\
  Db.account_of 0%nat (db w2)
  = Some {| acc_userId := 0%nat; balance := 15; lastUpdated := 1000 |} /\
  credit_transactions (db w2) = [].
Proof.
  cbv zeta. split; [|split; [|split]].
  - eexists. repeat split.
  - reflexivity.
  - eexists. split; [vm_compute; reflexivity|reflexivity].
  - split; reflexivity.
Qed.

(** C4. Evaluation of the replay: the callback with [success = true] is
    delivered twice for a pending payment.  Both calls return [false]; after
    the first one the payment is still pending, so the second one is not
    refused for the status; no credits are deposited. *)
Theorem payment_callback_replay :
  let w1 := world_after payment_created in
  let first := PaymentModel.handlePaymentCallback 2%nat "txn1" true w1 in
  let second := PaymentModel.handlePaymentCallback 2%nat "txn1" true
                  (world_after first) in
  result first = Normal false /\
  (exists payment,
     Db.payment_of 2%nat (db (world_after first)) = Some payment /\
     pay_status payment = pending) /\
  result second = Normal false /\
  credit_transactions (db (world_after second)) = [] /\
  Db.account_of 0%nat (db (world_after second))
  = Some {| acc_userId := 0%nat; balance := 15; lastUpdated := 1000 |}.
Proof.
  cbv zeta. split; [reflexivity|]. split.
  - eexists. split; [vm_compute; reflexivity|reflexivity].
  - repeat split.
Qed.

(** The replay of a failure report behaves as designed: the first call marks
    the payment failed, the second is refused and changes nothing. *)
Lemma payment_failure_replay :
  let w1 := world_after payment_created in
  let first := PaymentModel.handlePaymentCallback 2%nat "txn1" false w1 in
  let second := PaymentModel.handlePaymentCallback 2%nat "txn1" false
                  (world_after first) in
  result first = Normal true /\
  (exists payment,
     Db.payment_of 2%nat (db (world_after first)) = Some payment /\
     pay_status payment = failed) /\
  second = (Normal false, world_after first).
Proof.
  cbv zeta. split; [reflexivity|]. split.
  - eexists. split; [vm_compute; reflexivity|reflexivity].
  - reflexivity.
Qed.

(** ** Prices *)

Lemma unlisted_price :
  forall table key,
    own_property table key = None ->
    ~ In key object_prototype_properties ->
    js_or (get_property table key) (JsNumber 0) = JsNumber 0.
Proof.
  intros table key Hown Hproto. unfold get_property. rewrite Hown.
  destruct (existsb (String.eqb key) object_prototype_properties) eqn:E.
  - exfalso. apply Hproto. apply existsb_exists in E.
    destruct E as [k [Hin Heq]]. apply String.eqb_eq in Heq. subst k. exact Hin.
  - reflexivity.
Qed.

(** C10, as amended. A service key that is neither listed in the price
    table nor the name of a member of [Object.prototype] has price 0, in
    [getServicePrice] and in both [checkUserBalance] helpers; for an
    existing account whose balance is not negative the balance check of such
    a service passes. *)
Theorem unlisted_service_is_free :
  forall key,
    ~ In key object_prototype_properties ->
    (own_property ServiceModel.servicePricing key = None ->
     ServiceModel.getServicePrice key = JsNumber 0)
    /\
    (forall w userId account,
       Db.account_of userId (db w) = Some account ->
       0 <= balance account ->
       (own_property ServiceRoutes.SERVICE_PRICES key = None ->
        ServiceRoutes.checkUserBalance userId key w
        = (Normal {| ServiceRoutes.hasSufficientBalance := true;
                     ServiceRoutes.requiredCredits := JsNumber 0 |}, w))
       /\
       (own_property SampleServiceRoutes.SERVICE_PRICES key = None ->
        SampleServiceRoutes.checkUserBalance userId key w
        = (Normal {| ServiceRoutes.hasSufficientBalance := true;
                     ServiceRoutes.requiredCredits := JsNumber 0 |}, w))).
Proof.
  intros key Hproto. split.
  - intro Hown. exact (unlisted_price _ key Hown Hproto).
  - intros w userId account Hacc Hpos. split; intro Hown.
    + unfold ServiceRoutes.checkUserBalance, AccountModel.checkBalance,
        AccountModel.getUserAccount.
      rewrite (unlisted_price _ key Hown Hproto).
      unfold bind, Db.select, ret. rewrite Hacc. cbn.
      destruct (Z.leb_spec 0 (balance account)); [reflexivity|lia].
    + unfold SampleServiceRoutes.checkUserBalance, AccountModel.getUserAccount.
      rewrite (unlisted_price _ key Hown Hproto).
      unfold bind, Db.select, ret. rewrite Hacc. cbn.
      destruct (Z.leb_spec 0 (balance account)); [reflexivity|lia].
Qed.

Lemma unlisted_service_is_free_witness :
  ServiceModel.getServicePrice "ai-video-generate" = JsNumber 0 /\
  result (ServiceRoutes.checkUserBalance 0%nat "ai-video-generate" signed_up)
  = Normal {| ServiceRoutes.hasSufficientBalance := true;
              ServiceRoutes.requiredCredits := JsNumber 0 |}.
Proof.
  assert (P : ~ In "ai-video-generate" object_prototype_properties).
  { cbn. intuition discriminate. }
  assert (A : Db.account_of 0%nat (db signed_up)
              = Some {| acc_userId := 0%nat; balance := 15; lastUpdated := 1000 |})
    by reflexivity.
  destruct (unlisted_service_is_free "ai-video-generate" P) as [Hprice Hcheck].
  split; [apply Hprice; reflexivity|].
  destruct (Hcheck signed_up 0%nat _ A ltac:(cbn; lia)) as [Hroute _].
  rewrite (Hroute eq_refl). reflexivity.
Defined.

(** C10, as stated, fails twice: a key inherited from [Object.prototype] is
    not listed and its price is not 0, and an existing account with a
    negative balance does not pass the check of an unlisted service. *)
Lemma unlisted_service_counterexample :
  (own_property ServiceModel.servicePricing "constructor" = None /\
   ServiceModel.getServicePrice "constructor" <> JsNumber 0)
  /\
  (own_property ServiceRoutes.SERVICE_PRICES "ai-video-generate" = None /\
   Db.account_of 0%nat (db overdrawn)
   = Some {| acc_userId := 0%nat; balance := -5; lastUpdated := 1000 |} /\
   result (ServiceRoutes.checkUserBalance 0%nat "ai-video-generate" overdrawn)
   = Normal {| ServiceRoutes.hasSufficientBalance := false;
               ServiceRoutes.requiredCredits := JsNumber 0 |}).
Proof.
  split; split; try reflexivity.
  - discriminate.
  - split; reflexivity.
Qed.

(** ** Invariants of the reachable worlds *)

Lemma Zsum_app :
  forall l1 l2, Zsum (l1 ++ l2) = Zsum l1 + Zsum l2.
Proof.
  intros l1 l2. induction l1 as [|x l1 IH]; cbn [Zsum app fold_right].
  - reflexivity.
  - fold (Zsum (l1 ++ l2)). fold (Zsum l1). lia.
Qed.

Lemma ledger_sum_add_transaction :
  forall userId row t,
    ledger_sum userId (Db.add_transaction row t)
    = ledger_sum userId t
      + (if Nat.eqb (ct_userId row) userId then ct_amount row else 0).
Proof.
  intros userId row t. unfold ledger_sum, transactions_of. cbn.
  rewrite filter_app, map_app, Zsum_app. cbn.
  destruct (Nat.eqb (ct_userId row) userId); cbn; lia.
Qed.

Lemma ledger_sum_same_log :
  forall userId t t',
    credit_transactions t' = credit_transactions t ->
    ledger_sum userId t' = ledger_sum userId t.
Proof.
  intros userId t t' H. unfold ledger_sum, transactions_of. rewrite H. reflexivity.
Qed.

Lemma ledger_sum_unseen :
  forall userId t,
    (forall r, In r (credit_transactions t) -> ct_userId r <> userId) ->
    ledger_sum userId t = 0.
Proof.
  intros userId t. unfold ledger_sum, transactions_of.
  induction (credit_transactions t) as [|r l IH]; intro H; cbn; [reflexivity|].
  destruct (Nat.eqb_spec (ct_userId r) userId) as [E|_].
  - exfalso. exact (H r (or_introl eq_refl) E).
  - apply IH. intros r' Hr'. apply H. right. exact Hr'.
Qed.

Lemma ledger_consistent_same :
  forall seed t t',
    user_accounts t' = user_accounts t ->
    credit_transactions t' = credit_transactions t ->
    ledger_consistent seed t -> ledger_consistent seed t'.
Proof.
  intros seed t t' Ha Hr H a Hin. rewrite Ha in Hin.
  rewrite (ledger_sum_same_log _ t t' Hr). exact (H a Hin).
Qed.

Lemma rows_consistent_same :
  forall t t',
    credit_transactions t' = credit_transactions t ->
    rows_consistent t -> rows_consistent t'.
Proof. intros t t' Hr H r Hin. rewrite Hr in Hin. exact (H r Hin). Qed.

Lemma rows_consistent_add :
  forall t t' row,
    credit_transactions t' = (credit_transactions t ++ [row])%list ->
    previousBalance row + ct_amount row = currentBalance row ->
    rows_consistent t -> rows_consistent t'.
Proof.
  intros t t' row Hr Hrow H r Hin. rewrite Hr in Hin.
  apply in_app_or in Hin. destruct Hin as [Hin|[<-|[]]]; [exact (H r Hin)|exact Hrow].
Qed.

(** Writing [previous + amount] to the accounts of one user together with a
    row of [amount] keeps balances and log in step. *)
Lemma ledger_consistent_set_balance :
  forall seed t userId amount ts row account,
    ledger_consistent seed t ->
    Db.account_of userId t = Some account ->
    ct_userId row = userId -> ct_amount row = amount ->
    ledger_consistent seed
      (Db.add_transaction row
         (Db.map_accounts
            (AccountModel.set_balance userId (balance account + amount) ts) t)).
Proof.
  intros seed t userId amount ts row account H Hacc Hu Ha a' Hin.
  cbn in Hin. apply in_map_iff in Hin. destruct Hin as [a [<- Hin]].
  rewrite ledger_sum_add_transaction, set_balance_key, Hu, Ha.
  rewrite (ledger_sum_same_log (acc_userId a) t
             (Db.map_accounts
                (AccountModel.set_balance userId (balance account + amount) ts) t)
             eq_refl).
  apply account_of_key in Hacc. destruct Hacc as [Hacc Hkey].
  unfold AccountModel.set_balance.
  rewrite (Nat.eqb_sym userId).
  destruct (Nat.eqb_spec (acc_userId a) userId) as [E|_]; cbn.
  - rewrite (H account Hacc), Hkey, E. lia.
  - rewrite (H a Hin). lia.
Qed.

(** Adding [delta] to the accounts of one user together with a row of
    [delta] does the same. *)
Lemma ledger_consistent_add_balance :
  forall seed t userId delta ts row f,
    ledger_consistent seed t ->
    ct_userId row = userId -> ct_amount row = delta ->
    ledger_consistent seed
      (Db.add_transaction row
         (Db.map_usages f
            (Db.map_accounts (ServiceModel.add_balance userId delta ts) t))).
Proof.
  intros seed t userId delta ts row f H Hu Ha a' Hin.
  cbn in Hin. apply in_map_iff in Hin. destruct Hin as [a [<- Hin]].
  rewrite ledger_sum_add_transaction, add_balance_key, Hu, Ha.
  rewrite (ledger_sum_same_log (acc_userId a) t
             (Db.map_usages f
                (Db.map_accounts (ServiceModel.add_balance userId delta ts) t))
             eq_refl).
  unfold ServiceModel.add_balance.
  rewrite (Nat.eqb_sym userId).
  destruct (Nat.eqb_spec (acc_userId a) userId) as [E|_]; cbn;
    rewrite (H a Hin); lia.
Qed.

Ltac tables_cbn :=
  cbn [db next_uuid open_txn now users user_accounts credit_transactions
       payments service_usages Db.add_transaction Db.map_accounts Db.add_usage
       Db.add_payment Db.add_user Db.add_account Db.map_payments Db.map_usages
       with_db with_now bump plus].

Ltac key_preserved :=
  intro;
  first [ apply set_balance_key | apply add_balance_key
        | apply set_usage_status_key | apply set_status_key ].

(** The counter stays ahead of the stored ids when rows are appended under
    the ids just drawn and updates keep the keys. *)
Ltac ids_step H :=
  let Hu := fresh "Hu" in let Ha := fresh "Ha" in let Hr := fresh "Hr" in
  let Hp := fresh "Hp" in let Hs := fresh "Hs" in
  apply ids_below_tables in H; destruct H as (Hu & Ha & Hr & Hp & Hs);
  apply ids_below_tables; tables_cbn;
  repeat split;
  repeat first [ apply key_below_snoc; [|cbn; lia]
               | apply key_below_map; [key_preserved|] ];
  (eapply key_below_weaken; [|eassumption]; lia).

Lemma invariant_updateUserBalance :
  forall w userId amount type description relatedOrder,
    invariant w ->
    invariant (world_after (AccountModel.updateUserBalance userId amount type
                              description relatedOrder w)).
Proof.
  intros w userId amount type description relatedOrder (Hwf & Hl & Hr).
  rewrite (updateUserBalance_idle w userId amount type description relatedOrder
             (proj1 Hwf)).
  destruct (Db.account_of userId (db w)) as [account|] eqn:Hacc;
    [|repeat split; try assumption; apply Hwf].
  destruct (is_withdrawal type && (balance account + amount <? 0));
    [repeat split; try assumption; apply Hwf|].
  cbv zeta.
  rewrite (well_formed_transaction_id w
             (audit_row w userId amount type description relatedOrder
                (balance account)) Hwf eq_refl).
  unfold world_after; cbn [snd].
  destruct Hwf as [Hidle Hids].
  split; [split; [reflexivity|tables_cbn; ids_step Hids]|]. split.
  - tables_cbn.
    apply (ledger_consistent_set_balance 15 (db w) userId amount (now w)
             (audit_row w userId amount type description relatedOrder
                (balance account)) account Hl Hacc eq_refl eq_refl).
  - eapply rows_consistent_add; [reflexivity| |exact Hr]. reflexivity.
Qed.

(** A world with the same accounts and log, an idle connection and a
    counter ahead of its ids satisfies the invariant again. *)
Lemma invariant_frame :
  forall w w',
    invariant w ->
    idle w' ->
    ids_below (next_uuid w') (db w') = true ->
    user_accounts (db w') = user_accounts (db w) ->
    credit_transactions (db w') = credit_transactions (db w) ->
    invariant w'.
Proof.
  intros w w' (_ & Hl & Hr) Hidle Hids Ha Hc.
  split; [split; assumption|]. split.
  - exact (ledger_consistent_same 15 (db w) (db w') Ha Hc Hl).
  - exact (rows_consistent_same (db w) (db w') Hc Hr).
Qed.

Lemma invariant_bump :
  forall w k, invariant w -> invariant (bump k w).
Proof.
  intros w k H. pose proof H as ((Hidle & Hids) & _).
  apply (invariant_frame w _ H); try reflexivity; try exact Hidle.
  tables_cbn. ids_step Hids.
Qed.

Lemma invariant_createServiceUsage :
  forall w userId key used status detail,
    invariant w ->
    invariant (world_after (ServiceModel.createServiceUsage userId key used
                              status detail w)).
Proof.
  intros w userId key used status detail H.
  rewrite createServiceUsage_run. cbv zeta.
  destruct (Db.usage_conflict _ (db w)); unfold world_after; cbn [snd].
  - apply invariant_bump. exact H.
  - pose proof H as ((Hidle & Hids) & _).
    apply (invariant_frame w _ H); try reflexivity; try exact Hidle.
    tables_cbn. ids_step Hids.
Qed.

Lemma invariant_createPayment :
  forall w userId amount method rate,
    invariant w ->
    invariant (world_after (PaymentModel.createPayment userId amount method rate w)).
Proof.
  intros w userId amount method rate H.
  rewrite createPayment_run. cbv zeta.
  destruct (Db.payment_conflict _ (db w)); unfold world_after; cbn [snd].
  - apply invariant_bump. exact H.
  - pose proof H as ((Hidle & Hids) & _).
    apply (invariant_frame w _ H); try reflexivity; try exact Hidle.
    tables_cbn. ids_step Hids.
Qed.

Lemma invariant_updatePaymentStatus :
  forall w paymentId status txid,
    invariant w ->
    invariant (world_after (PaymentModel.updatePaymentStatus paymentId status txid w)).
Proof.
  intros w paymentId status txid H.
  pose proof H as ((Hidle & Hids) & _).
  rewrite (updatePaymentStatus_idle w paymentId status txid Hidle).
  destruct (Db.payment_of paymentId (db w)) as [payment|]; [|exact H].
  destruct (negb (is_pending (pay_status payment))); [exact H|].
  destruct (is_completed status); [exact H|].
  unfold world_after; cbn [snd].
  apply (invariant_frame w _ H); try reflexivity; try exact Hidle.
  tables_cbn. ids_step Hids.
Qed.

Lemma invariant_consume_failure :
  forall w userId key used detail errorMessage,
    invariant w ->
    invariant (world_after (consume_failure userId key used detail errorMessage w)).
Proof.
  intros w userId key used detail errorMessage H.
  unfold consume_failure.
  destruct (Db.usage_conflict _ (db w)); unfold world_after; cbn [snd].
  - apply invariant_bump. exact H.
  - pose proof H as ((Hidle & Hids) & _).
    apply (invariant_frame w _ H); try reflexivity; try exact Hidle.
    tables_cbn. ids_step Hids.
Qed.

Lemma invariant_consumeService :
  forall w userId key used detail,
    invariant w ->
    invariant (world_after (ServiceModel.consumeService userId key used detail w)).
Proof.
  intros w userId key used detail H.
  rewrite (consumeService_idle w userId key used detail (proj1 (proj1 H))).
  destruct (Db.account_of userId (db w)) as [account|];
    [destruct (used <=? balance account)|];
    apply invariant_consume_failure; exact H.
Qed.

Lemma invariant_refundServiceConsumption :
  forall w serviceUsageId reason,
    invariant w ->
    invariant (world_after (ServiceModel.refundServiceConsumption serviceUsageId
                              reason w)).
Proof.
  intros w serviceUsageId reason H.
  pose proof H as ((Hidle & Hids) & Hl & Hr).
  rewrite (refundServiceConsumption_idle w serviceUsageId reason Hidle).
  destruct (Db.usage_of serviceUsageId (db w)) as [usage|]; [|exact H].
  destruct (negb (is_usage_success (su_status usage))); [exact H|].
  destruct (refund_window_ms <? now w - su_createdAt usage); [exact H|].
  cbv zeta.
  rewrite (well_formed_transaction_id w
             (refund_row w serviceUsageId reason usage) (proj1 H) eq_refl).
  unfold world_after; cbn [snd].
  split; [split; [exact Hidle|tables_cbn; ids_step Hids]|]. split.
  - tables_cbn.
    apply (ledger_consistent_add_balance 15 (db w) (su_userId usage)
             (creditsUsed usage) (now w)
             (refund_row w serviceUsageId reason usage) _ Hl eq_refl eq_refl).
  - eapply rows_consistent_add; [reflexivity| |exact Hr]. cbn. lia.
Qed.

Lemma invariant_createUser :
  forall w name mail password phone,
    invariant w -> uuid_unseen w ->
    invariant (world_after (UserModel.createUser name mail password phone w)).
Proof.
  intros w name mail password phone H Hnew.
  pose proof H as ((Hidle & Hids) & Hl & Hr).
  rewrite createUser_run. cbv zeta.
  destruct (Db.user_conflict _ (db w)); unfold world_after; cbn [snd].
  { apply invariant_bump. exact H. }
  destruct (Db.account_conflict _ (db w)); cbn [snd].
  { apply (invariant_frame w _ H); try reflexivity; try exact Hidle.
    tables_cbn. ids_step Hids. }
  split; [split; [exact Hidle|tables_cbn; ids_step Hids]|]. split.
  - intros a Hin. cbn in Hin. apply in_app_or in Hin.
    match goal with
    | |- _ = _ + ledger_sum _ ?t' =>
        rewrite (ledger_sum_same_log (acc_userId a) (db w) t' eq_refl)
    end.
    destruct Hin as [Hin|[<-|[]]].
    + exact (Hl a Hin).
    + cbn [acc_userId balance].
      rewrite (ledger_sum_unseen (next_uuid w) (db w) Hnew). reflexivity.
  - exact Hr.
Qed.

Lemma invariant_initial : forall t0, invariant (initial_world t0).
Proof.
  intro t0. split; [split; reflexivity|]. split; intros x [].
Qed.

Lemma reachable_invariant : forall w, reachable w -> invariant w.
Proof.
  intros w H. induction H as [t0 | w c _ IH Hadm | w t _ IH _].
  - apply invariant_initial.
  - destruct c; cbn [perform].
    + apply invariant_createUser; [exact IH|exact Hadm].
    + apply invariant_updateUserBalance; exact IH.
    + apply invariant_createPayment; exact IH.
    + apply invariant_updatePaymentStatus; exact IH.
    + apply invariant_createServiceUsage; exact IH.
    + apply invariant_consumeService; exact IH.
    + apply invariant_refundServiceConsumption; exact IH.
  - destruct IH as ((Hidle & Hids) & Hl & Hr).
    split; [split; [exact Hidle|exact Hids]|]. split; assumption.
Qed.

(** ** The audit log *)

(** Every request starts in a well-formed world. *)
Lemma reachable_well_formed : forall w, reachable w -> well_formed w.
Proof. intros w H. exact (proj1 (reachable_invariant w H)). Qed.

Lemma reachable_signed_up : reachable signed_up.
Proof.
  apply (reach_call (initial_world 1000)
           (CreateUser "alice" "alice@example.com" "Passw0rd!" None)).
  - apply reach_init.
  - intros r [].
Qed.

Lemma reachable_rewarded : reachable rewarded.
Proof.
  apply (reach_call signed_up (UpdateUserBalance 0%nat 7 reward (Some "welcome") None)).
  - exact reachable_signed_up.
  - exact I.
Qed.

Lemma reachable_refunded :
  reachable (perform (RefundServiceConsumption 2%nat None) used_once).
Proof.
  apply reach_call; [|exact I].
  apply (reach_call signed_up
           (CreateServiceUsage 0%nat "ai-image-edit" 5 usage_success None)).
  - exact reachable_signed_up.
  - exact I.
Qed.

(** A history on safe integers is a history. *)
Lemma safely_reachable_reachable : forall w, safely_reachable w -> reachable w.
Proof.
  intros w H. induction H as [t0 | w c _ IH Hadm _ _ | w t _ IH Ht].
  - apply reach_init.
  - apply reach_call; assumption.
  - apply reach_clock; assumption.
Qed.

Lemma safely_reachable_signed_up : safely_reachable signed_up.
Proof.
  apply (safely_call (initial_world 1000)
           (CreateUser "alice" "alice@example.com" "Passw0rd!" None)).
  - apply safely_init.
  - intros r [].
  - reflexivity.
  - reflexivity.
Qed.

Lemma safely_reachable_rewarded : safely_reachable rewarded.
Proof.
  apply (safely_call signed_up
           (UpdateUserBalance 0%nat 7 reward (Some "welcome") None)).
  - exact safely_reachable_signed_up.
  - exact I.
  - reflexivity.
  - reflexivity.
Qed.


(** C2, as amended. In every world reached on safe integers (integral
    amounts, every number passed or stored of magnitude at most 2^53 - 1,
    where the sums of the code are exact) the balance of each account is the
    starting balance 15 plus the sum of the amounts of the user's credit
    transactions. *)
Theorem balance_is_seed_plus_log :
  forall w a,
    safely_reachable w ->
    In a (user_accounts (db w)) ->
    balance a = 15 + ledger_sum (acc_userId a) (db w).
Proof.
  intros w a Hsafe Hin.
  destruct (reachable_invariant w (safely_reachable_reachable w Hsafe))
    as (_ & Hl & _).
  exact (Hl a Hin).
Qed.

Lemma balance_is_seed_plus_log_witness :
  safely_reachable rewarded /\
  In {| acc_userId := 0%nat; balance := 22; lastUpdated := 1000 |}
     (user_accounts (db rewarded)) /\
  22 = 15 + ledger_sum 0%nat (db rewarded).
Proof.
  assert (Hin : In {| acc_userId := 0%nat; balance := 22; lastUpdated := 1000 |}
                   (user_accounts (db rewarded))) by (left; reflexivity).
  split; [exact safely_reachable_rewarded|]. split; [exact Hin|].
  exact (balance_is_seed_plus_log rewarded _ safely_reachable_rewarded Hin).
Defined.

(** C2, as stated, fails.  In the world reached by [createUser] alone the
    account holds 15 credits and the user has no credit transaction.  On
    the doubles of the code a deposit of 2^53 followed by a withdrawal of
    2^53, both successful, leaves the seeded balance at 16, while the two
    amounts logged sum to 0: the balance is neither that sum nor 15 plus
    that sum.  And deposits of 0.1 and of 0.2 leave a balance below 15 plus
    the sum of the two amounts logged. *)
Lemma balance_is_log_counterexample :
  ~ (forall w a,
       reachable w ->
       In a (user_accounts (db w)) ->
       balance a = ledger_sum (acc_userId a) (db w))
  /\
  (let first := Doubles.depositCredits (Doubles.double 9007199254740992)
                  Doubles.seeded in
   let second := Doubles.withdrawCredits (Doubles.double 9007199254740992)
                   (snd first) in
   fst first = true /\ fst second = true /\
   Doubles.integer_value (Doubles.balance (snd second)) = Some 16 /\
   map (fun r => Doubles.integer_value (Doubles.amount r))
     (Doubles.rows (snd second))
   = [Some 9007199254740992; Some (- 9007199254740992)] /\
   16 <> 9007199254740992 + - 9007199254740992 /\
   16 <> 15 + (9007199254740992 + - 9007199254740992))
  /\
  (let first := Doubles.depositCredits Doubles.tenth Doubles.seeded in
   let second := Doubles.depositCredits Doubles.fifth (snd first) in
   fst first = true /\ fst second = true /\
   match Doubles.rational_value (Doubles.balance (snd second)),
         Doubles.logged (snd second) with
   | Some b, Some total => (b < 15 + total)%Q
   | _, _ => False
   end).
Proof.
  split.
  - intro H.
    specialize (H signed_up
                  {| acc_userId := 0%nat; balance := 15; lastUpdated := 1000 |}
                  reachable_signed_up (or_introl eq_refl)).
    discriminate H.
  - split.
    + cbv zeta. repeat split; try (vm_compute; reflexivity); discriminate.
    + cbv zeta. repeat split; vm_compute; reflexivity.
Qed.




(** * Further properties of the models *)

(** ** Well-formed worlds are closed under the requests *)

Lemma well_formed_bump : forall w k, well_formed w -> well_formed (bump k w).
Proof.
  intros w k [Hidle Hids]. split; [exact Hidle|]. tables_cbn. ids_step Hids.
Qed.

(** In a well-formed world the INSERT of the audit row cannot fail, which
    leaves [updateUserBalance] two outcomes on an existing account. *)
Lemma updateUserBalance_well_formed :
  forall w userId amount type description relatedOrder account,
    well_formed w ->
    Db.account_of userId (db w) = Some account ->
    AccountModel.updateUserBalance userId amount type description relatedOrder w
    = if is_withdrawal type && (balance account + amount <? 0)
      then (Normal false, w)
      else (Normal true,
            {| db := Db.add_transaction
                       (audit_row w userId amount type description relatedOrder
                          (balance account))
                       (Db.map_accounts
                          (AccountModel.set_balance userId
                             (balance account + amount) (now w)) (db w));
               open_txn := None; now := now w;
               next_uuid := S (next_uuid w) |}).
Proof.
  intros w userId amount type description relatedOrder account Hwf Hacc.
  rewrite (updateUserBalance_idle w userId amount type description relatedOrder
             (proj1 Hwf)), Hacc.
  cbv zeta.
  rewrite (well_formed_transaction_id w
             (audit_row w userId amount type description relatedOrder
                (balance account)) Hwf eq_refl).
  reflexivity.
Qed.

Lemma updateUserBalance_no_account :
  forall w userId amount type description relatedOrder,
    idle w ->
    Db.account_of userId (db w) = None ->
    AccountModel.updateUserBalance userId amount type description relatedOrder w
    = (Normal false, w).
Proof.
  intros w userId amount type description relatedOrder Hidle Hacc.
  rewrite (updateUserBalance_idle w userId amount type description relatedOrder
             Hidle), Hacc.
  reflexivity.
Qed.

Lemma well_formed_updateUserBalance :
  forall w userId amount type description relatedOrder,
    well_formed w ->
    well_formed (world_after (AccountModel.updateUserBalance userId amount type
                                description relatedOrder w)).
Proof.
  intros w userId amount type description relatedOrder Hwf.
  destruct (Db.account_of userId (db w)) as [account|] eqn:Hacc.
  - rewrite (updateUserBalance_well_formed w userId amount type description
               relatedOrder account Hwf Hacc).
    destruct (is_withdrawal type && (balance account + amount <? 0));
      [exact Hwf|].
    destruct Hwf as [Hidle Hids]. split; [reflexivity|].
    unfold world_after; cbn [snd]. tables_cbn. ids_step Hids.
  - rewrite (updateUserBalance_no_account w userId amount type description
               relatedOrder (proj1 Hwf) Hacc).
    exact Hwf.
Qed.

Lemma well_formed_createServiceUsage :
  forall w userId key used status detail,
    well_formed w ->
    well_formed (world_after (ServiceModel.createServiceUsage userId key used
                                status detail w)).
Proof.
  intros w userId key used status detail Hwf.
  rewrite createServiceUsage_run. cbv zeta.
  destruct (Db.usage_conflict _ (db w)); unfold world_after; cbn [snd].
  - apply well_formed_bump. exact Hwf.
  - destruct Hwf as [Hidle Hids]. split; [exact Hidle|]. tables_cbn. ids_step Hids.
Qed.

Lemma well_formed_createPayment :
  forall w userId amount method rate,
    well_formed w ->
    well_formed (world_after (PaymentModel.createPayment userId amount method
                                rate w)).
Proof.
  intros w userId amount method rate Hwf.
  rewrite createPayment_run. cbv zeta.
  destruct (Db.payment_conflict _ (db w)); unfold world_after; cbn [snd].
  - apply well_formed_bump. exact Hwf.
  - destruct Hwf as [Hidle Hids]. split; [exact Hidle|]. tables_cbn. ids_step Hids.
Qed.

Lemma well_formed_updatePaymentStatus :
  forall w paymentId status txid,
    well_formed w ->
    well_formed (world_after (PaymentModel.updatePaymentStatus paymentId status
                                txid w)).
Proof.
  intros w paymentId status txid Hwf.
  rewrite (updatePaymentStatus_idle w paymentId status txid (proj1 Hwf)).
  destruct (Db.payment_of paymentId (db w)) as [payment|]; [|exact Hwf].
  destruct (negb (is_pending (pay_status payment))); [exact Hwf|].
  destruct (is_completed status); [exact Hwf|].
  unfold world_after; cbn [snd].
  destruct Hwf as [Hidle Hids]. split; [exact Hidle|]. tables_cbn. ids_step Hids.
Qed.

Lemma well_formed_consume_failure :
  forall w userId key used detail errorMessage,
    well_formed w ->
    well_formed (world_after (consume_failure userId key used detail
                                errorMessage w)).
Proof.
  intros w userId key used detail errorMessage Hwf.
  unfold consume_failure.
  destruct (Db.usage_conflict _ (db w)); unfold world_after; cbn [snd].
  - apply well_formed_bump. exact Hwf.
  - destruct Hwf as [Hidle Hids]. split; [exact Hidle|]. tables_cbn. ids_step Hids.
Qed.

Lemma well_formed_consumeService :
  forall w userId key used detail,
    well_formed w ->
    well_formed (world_after (ServiceModel.consumeService userId key used detail w)).
Proof.
  intros w userId key used detail Hwf.
  rewrite (consumeService_idle w userId key used detail (proj1 Hwf)).
  destruct (Db.account_of userId (db w)) as [account|];
    [destruct (used <=? balance account)|];
    apply well_formed_consume_failure; exact Hwf.
Qed.

Lemma well_formed_refundServiceConsumption :
  forall w serviceUsageId reason,
    well_formed w ->
    well_formed (world_after (ServiceModel.refundServiceConsumption
                                serviceUsageId reason w)).
Proof.
  intros w serviceUsageId reason Hwf.
  rewrite (refundServiceConsumption_idle w serviceUsageId reason (proj1 Hwf)).
  destruct (Db.usage_of serviceUsageId (db w)) as [usage|]; [|exact Hwf].
  destruct (negb (is_usage_success (su_status usage))); [exact Hwf|].
  destruct (refund_window_ms <? now w - su_createdAt usage); [exact Hwf|].
  cbv zeta.
  rewrite (well_formed_transaction_id w
             (refund_row w serviceUsageId reason usage) Hwf eq_refl).
  unfold world_after; cbn [snd].
  destruct Hwf as [Hidle Hids]. split; [exact Hidle|]. tables_cbn. ids_step Hids.
Qed.

Lemma well_formed_createUser :
  forall w name mail password phone,
    well_formed w ->
    well_formed (world_after (UserModel.createUser name mail password phone w)).
Proof.
  intros w name mail password phone Hwf.
  rewrite createUser_run. cbv zeta.
  destruct (Db.user_conflict _ (db w)); unfold world_after; cbn [snd].
  { apply well_formed_bump. exact Hwf. }
  destruct (Db.account_conflict _ (db w)); cbn [snd];
    destruct Hwf as [Hidle Hids]; (split; [exact Hidle|]);
    tables_cbn; ids_step Hids.
Qed.

Lemma well_formed_perform :
  forall w c, well_formed w -> well_formed (perform c w).
Proof.
  intros w c Hwf. destruct c; cbn [perform].
  - apply well_formed_createUser; exact Hwf.
  - apply well_formed_updateUserBalance; exact Hwf.
  - apply well_formed_createPayment; exact Hwf.
  - apply well_formed_updatePaymentStatus; exact Hwf.
  - apply well_formed_createServiceUsage; exact Hwf.
  - apply well_formed_consumeService; exact Hwf.
  - apply well_formed_refundServiceConsumption; exact Hwf.
Qed.

(** ** The ledger wrappers *)

Lemma account_after_ledger_write :
  forall w userId amount type description relatedOrder account,
    Db.account_of userId (db w) = Some account ->
    Db.account_of userId
      (Db.add_transaction
         (audit_row w userId amount type description relatedOrder (balance account))
         (Db.map_accounts
            (AccountModel.set_balance userId (balance account + amount) (now w))
            (db w)))
    = Some {| acc_userId := userId; balance := balance account + amount;
              lastUpdated := now w |}.
Proof.
  intros w userId amount type description relatedOrder account Hacc.
  pose proof (account_of_key _ _ _ Hacc) as [_ Hkey].
  rewrite <- Hkey at 4.
  apply (account_after_set_balance userId (balance account + amount) (now w)
           (db w) account Hacc).
Qed.



(** X2. The three ways to ask whether [credits] can be spent agree on every
    user, with or without account: [checkBalance], the [canConsume] answer
    of [confirmServiceConsumption] and the success of [withdrawCredits]
    return the same boolean, and the two checks leave the world as it is. *)
Theorem balance_checks_predict_withdrawal :
  forall w userId key credits relatedOrder description,
    well_formed w ->
    exists covered : bool,
      AccountModel.checkBalance userId (JsNumber credits) w = (Normal covered, w) /\
      (exists reported,
         ServiceModel.confirmServiceConsumption userId key credits w
         = (Normal {| ServiceModel.canConsume := covered;
                      ServiceModel.cc_balance := reported |}, w)) /\
      result (AccountModel.withdrawCredits userId credits relatedOrder description w)
      = Normal covered.
Proof.
  intros w userId key credits relatedOrder description Hwf.
  unfold AccountModel.checkBalance, AccountModel.getUserAccount,
    ServiceModel.confirmServiceConsumption, AccountModel.withdrawCredits,
    bind, Db.select, ret.
  destruct (Db.account_of userId (db w)) as [account|] eqn:Hacc.
  - exists (credits <=? balance account). cbn [js_ge].
    split; [reflexivity|]. split; [eexists; reflexivity|].
    rewrite (updateUserBalance_well_formed w userId (- credits) withdrawal
               description relatedOrder account Hwf Hacc).
    cbn [is_withdrawal andb].
    destruct (Z.ltb_spec (balance account + - credits) 0);
      destruct (Z.leb_spec credits (balance account)); try lia; reflexivity.
  - exists false. split; [reflexivity|]. split; [eexists; reflexivity|].
    rewrite (updateUserBalance_no_account w userId (- credits) withdrawal
               description relatedOrder (proj1 Hwf) Hacc).
    reflexivity.
Qed.

Lemma balance_checks_predict_withdrawal_witness :
  well_formed signed_up /\
  exists covered : bool,
    AccountModel.checkBalance 0%nat (JsNumber 15) signed_up
    = (Normal covered, signed_up) /\
    result (AccountModel.withdrawCredits 0%nat 15 None None signed_up)
    = Normal covered.
Proof.
  assert (W : well_formed signed_up) by (split; reflexivity).
  split; [exact W|].
  destruct (balance_checks_predict_withdrawal signed_up 0%nat "ai-image-edit" 15
              None None W) as [covered (Hcheck & _ & Hdraw)].
  exists covered. split; [exact Hcheck|exact Hdraw].
Defined.

(** X3. For a user without an account every ledger write returns [false]
    and changes nothing, whatever the amount and the type (a deposit
    included); [getBalance] answers 0 and [checkBalance] answers [false],
    also for a required amount of 0. *)
Theorem ledger_without_account :
  forall w userId,
    idle w ->
    Db.account_of userId (db w) = None ->
    (forall amount type description relatedOrder,
       AccountModel.updateUserBalance userId amount type description relatedOrder w
       = (Normal false, w)) /\
    (forall amount relatedOrder description,
       AccountModel.depositCredits userId amount relatedOrder description w
       = (Normal false, w)) /\
    (forall amount relatedOrder description,
       AccountModel.withdrawCredits userId amount relatedOrder description w
       = (Normal false, w)) /\
    (forall amount description,
       AccountModel.rewardCredits userId amount description w = (Normal false, w)) /\
    AccountModel.getBalance userId w = (Normal 0, w) /\
    (forall required,
       AccountModel.checkBalance userId required w = (Normal false, w)).
Proof.
  intros w userId Hidle Hacc.
  split; [intros; apply updateUserBalance_no_account; assumption|].
  split; [intros; apply updateUserBalance_no_account; assumption|].
  split; [intros; apply updateUserBalance_no_account; assumption|].
  split; [intros; apply updateUserBalance_no_account; assumption|].
  unfold AccountModel.getBalance, AccountModel.checkBalance,
    AccountModel.getUserAccount, bind, Db.select, ret.
  rewrite Hacc. split; [reflexivity|]. intro; reflexivity.
Qed.

Lemma ledger_without_account_witness :
  idle signed_up /\ Db.account_of 7%nat (db signed_up) = None /\
  AccountModel.depositCredits 7%nat 100 None None signed_up
  = (Normal false, signed_up).
Proof.
  assert (I : idle signed_up) by reflexivity.
  assert (A : Db.account_of 7%nat (db signed_up) = None) by reflexivity.
  split; [exact I|]. split; [exact A|].
  apply (ledger_without_account signed_up 7%nat I A).
Defined.

(** X4. A deposit followed by a withdrawal of the same amount, where the
    balance, the amount and their sum are safe integers (so that both sums
    of the code are exact): the deposit always succeeds; the withdrawal
    succeeds and restores the balance when the balance before was not
    negative, and is refused, leaving the deposit in place, when it was
    negative. *)
Theorem deposit_then_withdraw :
  forall w userId amount account,
    well_formed w ->
    Db.account_of userId (db w) = Some account ->
    safe_integer (balance account) = true ->
    safe_integer amount = true ->
    safe_integer (balance account + amount) = true ->
    let first := AccountModel.depositCredits userId amount None None w in
    let w1 := world_after first in
    let second := AccountModel.withdrawCredits userId amount None None w1 in
    let w2 := world_after second in
    result first = Normal true /\
    (0 <= balance account ->
     result second = Normal true /\
     exists account',
       Db.account_of userId (db w2) = Some account' /\
       balance account' = balance account /\
       List.length (credit_transactions (db w2))
       = (2 + List.length (credit_transactions (db w)))%nat) /\
    (balance account < 0 ->
     result second = Normal false /\ db w2 = db w1 /\
     exists account',
       Db.account_of userId (db w2) = Some account' /\
       balance account' = balance account + amount).
Proof.
  intros w userId amount account Hwf Hacc _ _ _ first w1 second w2.
  assert (Hw1 : well_formed w1).
  { apply well_formed_updateUserBalance. exact Hwf. }
  assert (Hfirst : first
                   = (Normal true,
                      {| db := Db.add_transaction
                                 (audit_row w userId amount deposit None None
                                    (balance account))
                                 (Db.map_accounts
                                    (AccountModel.set_balance userId
                                       (balance account + amount) (now w)) (db w));
                         open_txn := None; now := now w;
                         next_uuid := S (next_uuid w) |})).
  { subst first. unfold AccountModel.depositCredits.
    rewrite (updateUserBalance_well_formed w userId amount deposit None None
               account Hwf Hacc).
    reflexivity. }
  assert (Hacc1 : Db.account_of userId (db w1)
                  = Some {| acc_userId := userId; balance := balance account + amount;
                            lastUpdated := now w |}).
  { subst w1. rewrite Hfirst. unfold world_after; cbn [snd db].
    apply account_after_ledger_write. exact Hacc. }
  assert (Hlen1 : List.length (credit_transactions (db w1))
                  = S (List.length (credit_transactions (db w)))).
  { subst w1. rewrite Hfirst. unfold world_after; cbn.
    rewrite length_app. cbn. lia. }
  split; [rewrite Hfirst; reflexivity|].
  pose proof (updateUserBalance_well_formed w1 userId (- amount) withdrawal None
                None _ Hw1 Hacc1) as Hsecond.
  cbn [is_withdrawal andb balance] in Hsecond.
  fold (AccountModel.withdrawCredits userId amount None None w1) in Hsecond.
  fold second in Hsecond.
  destruct (Z.ltb_spec (balance account + amount + - amount) 0) as [Hneg|Hpos].
  - split; [lia|]. intros _.
    subst w2. rewrite Hsecond. unfold result, world_after; cbn [fst snd].
    split; [reflexivity|]. split; [reflexivity|].
    eexists. split; [exact Hacc1|reflexivity].
  - split; [|lia]. intros _.
    subst w2. rewrite Hsecond. unfold result, world_after; cbn [fst snd db].
    split; [reflexivity|].
    eexists. split.
    + exact (account_after_ledger_write w1 userId (- amount) withdrawal None None
               _ Hacc1).
    + cbn. split; [lia|]. rewrite length_app, Hlen1. cbn. lia.
Qed.

Lemma deposit_then_withdraw_witness :
  well_formed signed_up /\
  safe_integer 15 = true /\ safe_integer 40 = true /\
  safe_integer (15 + 40) = true /\
  result (AccountModel.withdrawCredits 0%nat 40 None None
            (world_after (AccountModel.depositCredits 0%nat 40 None None signed_up)))
  = Normal true.
Proof.
  assert (W : well_formed signed_up) by (split; reflexivity).
  assert (A : Db.account_of 0%nat (db signed_up)
              = Some {| acc_userId := 0%nat; balance := 15; lastUpdated := 1000 |})
    by reflexivity.
  split; [exact W|].
  split; [reflexivity|]. split; [reflexivity|]. split; [reflexivity|].
  apply (deposit_then_withdraw signed_up 0%nat 40 _ W A
           eq_refl eq_refl eq_refl).
  cbn. lia.
Defined.

(** ** Listings: ORDER BY, LIMIT and OFFSET *)

Section Listing.
Context {A : Type} (key : A -> Z).

Lemma insert_desc_permutation :
  forall x l, Permutation (Db.insert_desc key x l) (x :: l).
Proof.
  intros x l. induction l as [|y l IH]; cbn [Db.insert_desc].
  - apply Permutation_refl.
  - destruct (key y <=? key x); [apply Permutation_refl|].
    eapply perm_trans; [apply perm_skip; exact IH|apply perm_swap].
Qed.

Lemma order_by_desc_permutation :
  forall l, Permutation (Db.order_by_desc key l) l.
Proof.
  induction l as [|x l IH]; cbn [Db.order_by_desc fold_right].
  - apply Permutation_refl.
  - eapply perm_trans; [apply insert_desc_permutation|].
    apply perm_skip. exact IH.
Qed.

Lemma insert_desc_sorted :
  forall x l,
    StronglySorted (newer_or_same key) l ->
    StronglySorted (newer_or_same key) (Db.insert_desc key x l).
Proof.
  intros x l H. induction H as [|y l Hl IH Hy]; cbn [Db.insert_desc].
  - constructor; [constructor|constructor].
  - destruct (Z.leb_spec (key y) (key x)) as [Hle|Hgt].
    + constructor; [constructor; assumption|].
      constructor; [exact Hle|].
      rewrite Forall_forall in *. intros z Hz.
      specialize (Hy z Hz). unfold newer_or_same in *. lia.
    + constructor; [exact IH|].
      rewrite Forall_forall in *. intros z Hz.
      apply (Permutation_in _ (insert_desc_permutation x l)) in Hz.
      destruct Hz as [<-|Hz]; [unfold newer_or_same; lia|exact (Hy z Hz)].
Qed.

Lemma order_by_desc_sorted :
  forall l, StronglySorted (newer_or_same key) (Db.order_by_desc key l).
Proof.
  induction l as [|x l IH]; cbn [Db.order_by_desc fold_right].
  - constructor.
  - apply insert_desc_sorted. exact IH.
Qed.

Lemma skipn_in : forall n (l : list A) x, In x (skipn n l) -> In x l.
Proof.
  induction n as [|n IH]; intros [|y l] x H; cbn in *; try assumption.
  right. exact (IH l x H).
Qed.

Lemma firstn_in : forall n (l : list A) x, In x (firstn n l) -> In x l.
Proof.
  induction n as [|n IH]; intros [|y l] x H; cbn in *; try contradiction.
  destruct H as [H|H]; [left; exact H|right; exact (IH l x H)].
Qed.

Lemma skipn_sorted :
  forall (R : A -> A -> Prop) n l,
    StronglySorted R l -> StronglySorted R (skipn n l).
Proof.
  intros R. induction n as [|n IH]; intros l H; [exact H|].
  destruct H as [|y l Hl _]; cbn; [constructor|exact (IH l Hl)].
Qed.

Lemma firstn_sorted :
  forall (R : A -> A -> Prop) n l,
    StronglySorted R l -> StronglySorted R (firstn n l).
Proof.
  intros R. induction n as [|n IH]; intros l H; [constructor|].
  destruct H as [|y l Hl Hy]; cbn; [constructor|].
  constructor; [exact (IH l Hl)|].
  rewrite Forall_forall in *. intros z Hz. apply Hy.
  exact (firstn_in n l z Hz).
Qed.

Lemma limit_offset_in :
  forall limit offset (l : list A) x,
    In x (Db.limit_offset limit offset l) -> In x l.
Proof.
  intros limit offset l x. unfold Db.limit_offset.
  destruct (limit <? 0); intro H.
  - exact (skipn_in _ _ _ H).
  - exact (skipn_in _ _ _ (firstn_in _ _ _ H)).
Qed.

Lemma limit_offset_sorted :
  forall (R : A -> A -> Prop) limit offset l,
    StronglySorted R l -> StronglySorted R (Db.limit_offset limit offset l).
Proof.
  intros R limit offset l H. unfold Db.limit_offset.
  destruct (limit <? 0).
  - apply skipn_sorted. exact H.
  - apply firstn_sorted. apply skipn_sorted. exact H.
Qed.

Lemma limit_offset_length :
  forall limit offset (l : list A),
    limit < 0 \/ Z.of_nat (List.length (Db.limit_offset limit offset l)) <= limit.
Proof.
  intros limit offset l. unfold Db.limit_offset.
  destruct (Z.ltb_spec limit 0) as [Hneg|Hpos]; [left; exact Hneg|right].
  pose proof (firstn_le_length (Z.to_nat limit) (skipn (Z.to_nat offset) l)).
  lia.
Qed.

(** A page that starts at the first row and whose limit is absent
    (negative) or not below the number of rows is the whole listing. *)
Lemma limit_offset_all :
  forall limit offset (l : list A),
    offset <= 0 ->
    limit < 0 \/ Z.of_nat (List.length l) <= limit ->
    Db.limit_offset limit offset l = l.
Proof.
  intros limit offset l Hoff Hlim. unfold Db.limit_offset.
  replace (Z.to_nat offset) with 0%nat by lia. cbn [skipn].
  destruct (Z.ltb_spec limit 0) as [Hneg|Hpos]; [reflexivity|].
  apply firstn_all2. lia.
Qed.

Lemma listing_in :
  forall (f : A -> bool) limit offset l x,
    In x (Db.limit_offset limit offset (Db.order_by_desc key (filter f l))) ->
    In x l /\ f x = true.
Proof.
  intros f limit offset l x H.
  apply limit_offset_in in H.
  apply (Permutation_in _ (order_by_desc_permutation (filter f l))) in H.
  apply filter_In in H. exact H.
Qed.

Lemma listing_all :
  forall (f : A -> bool) limit offset l,
    offset <= 0 ->
    limit < 0 \/ Z.of_nat (List.length (filter f l)) <= limit ->
    Permutation
      (Db.limit_offset limit offset (Db.order_by_desc key (filter f l)))
      (filter f l).
Proof.
  intros f limit offset l Hoff Hlim.
  rewrite limit_offset_all; [apply order_by_desc_permutation|exact Hoff|].
  rewrite (Permutation_length (order_by_desc_permutation (filter f l))).
  exact Hlim.
Qed.
End Listing.

Lemma Zsum_permutation :
  forall l l', Permutation l l' -> Zsum l = Zsum l'.
Proof.
  intros l l' H. unfold Zsum.
  induction H; cbn [fold_right] in *; lia.
Qed.

(** X5. [getUserTransactions] reads without writing; every row it returns
    is a stored transaction of the user asked for, the rows come newest
    first, and a non-negative limit (50 when none is given) bounds their
    number. *)
Theorem getUserTransactions_page :
  forall w userId limit offset,
    exists rows,
      AccountModel.getUserTransactions userId limit offset w = (Normal rows, w) /\
      (forall r, In r rows ->
                 In r (credit_transactions (db w)) /\ ct_userId r = userId) /\
      StronglySorted (newer_or_same ct_createdAt) rows /\
      (let n := match limit with Some n => n | None => 50 end in
       n < 0 \/ Z.of_nat (List.length rows) <= n).
Proof.
  intros w userId limit offset.
  unfold AccountModel.getUserTransactions, Db.select. cbv zeta.
  eexists. split; [reflexivity|]. split; [|split].
  - intros r Hr. apply listing_in in Hr. destruct Hr as [Hin Hu].
    split; [exact Hin|]. apply Nat.eqb_eq. exact Hu.
  - apply limit_offset_sorted. apply order_by_desc_sorted.
  - apply limit_offset_length.
Qed.

(** X6. In a world reached on safe integers the full history returned by
    [getUserTransactions] (first page, limit absent by being negative or at
    least the number of the user's rows) is a rearrangement of the user's
    audit rows, and the balance of the account is 15 plus the sum of the
    amounts listed. *)
Theorem full_history_reconstructs_balance :
  forall w a limit offset,
    safely_reachable w ->
    In a (user_accounts (db w)) ->
    offset <= 0 ->
    limit < 0
    \/ Z.of_nat (List.length (transactions_of (acc_userId a) (db w))) <= limit ->
    exists rows,
      AccountModel.getUserTransactions (acc_userId a) (Some limit) (Some offset) w
      = (Normal rows, w) /\
      Permutation rows (transactions_of (acc_userId a) (db w)) /\
      balance a = 15 + Zsum (map ct_amount rows).
Proof.
  intros w a limit offset Hsafe Hin Hoff Hlim.
  pose proof (safely_reachable_reachable w Hsafe) as Hreach.
  unfold AccountModel.getUserTransactions, Db.select. cbv zeta.
  eexists. split; [reflexivity|].
  assert (P : Permutation
                (Db.limit_offset limit offset
                   (Db.order_by_desc ct_createdAt
                      (filter (fun r => Nat.eqb (ct_userId r) (acc_userId a))
                         (credit_transactions (db w)))))
                (transactions_of (acc_userId a) (db w))).
  { apply listing_all; assumption. }
  split; [exact P|].
  rewrite (Zsum_permutation _ _ (Permutation_map ct_amount P)).
  destruct (reachable_invariant w Hreach) as (_ & Hl & _).
  exact (Hl a Hin).
Qed.

Lemma full_history_reconstructs_balance_witness :
  safely_reachable rewarded /\
  exists rows,
    AccountModel.getUserTransactions 0%nat (Some 50) (Some 0) rewarded
    = (Normal rows, rewarded) /\
    22 = 15 + Zsum (map ct_amount rows).
Proof.
  assert (Hin : In {| acc_userId := 0%nat; balance := 22; lastUpdated := 1000 |}
                   (user_accounts (db rewarded))) by (left; reflexivity).
  split; [exact safely_reachable_rewarded|].
  destruct (full_history_reconstructs_balance rewarded _ 50 0
              safely_reachable_rewarded
              Hin ltac:(lia) ltac:(right; vm_compute; discriminate))
    as [rows (Hrun & _ & Hsum)].
  exists rows. split; [exact Hrun|exact Hsum].
Defined.

(** X7. [getUserServiceUsages] reads without writing.  Without limit, from
    the first row, it returns exactly the usages of the user, narrowed to
    the service key when one is given; an empty key narrows nothing, as an
    absent one. *)
Theorem getUserServiceUsages_filter :
  forall w userId limit key,
    limit < 0 ->
    exists rows,
      ServiceModel.getUserServiceUsages userId (Some limit) None key w
      = (Normal rows, w) /\
      (forall u,
         In u rows <->
         In u (service_usages (db w)) /\ su_userId u = userId /\
         (forall k, key = Some k -> k <> "" -> serviceKey u = k)) /\
      StronglySorted (newer_or_same su_createdAt) rows /\
      ServiceModel.getUserServiceUsages userId (Some limit) None (Some "") w
      = ServiceModel.getUserServiceUsages userId (Some limit) None None w.
Proof.
  intros w userId limit key Hlim.
  unfold ServiceModel.getUserServiceUsages, Db.select. cbv zeta.
  eexists. split; [reflexivity|]. split; [|split; [|reflexivity]].
  - intro u.
    rewrite (limit_offset_all limit 0 _ ltac:(lia) (or_introl Hlim)).
    split.
    + intro H.
      apply (Permutation_in _ (order_by_desc_permutation su_createdAt _)) in H.
      apply filter_In in H. destruct H as [Hin Hq].
      split; [exact Hin|]. unfold ServiceModel.usage_query in Hq.
      destruct key as [k|].
      * destruct (String.eqb_spec k "") as [->|Hk].
        -- apply Nat.eqb_eq in Hq. split; [exact Hq|].
           intros k' Hk' Hne. congruence.
        -- apply andb_true_iff in Hq. destruct Hq as [Hu Hkey].
           apply Nat.eqb_eq in Hu. apply String.eqb_eq in Hkey.
           split; [exact Hu|]. intros k' Hk' _. congruence.
      * apply Nat.eqb_eq in Hq. split; [exact Hq|]. intros k' Hk'. discriminate.
    + intros (Hin & Hu & Hkey).
      apply (Permutation_in _ (Permutation_sym
                                 (order_by_desc_permutation su_createdAt _))).
      apply filter_In. split; [exact Hin|].
      unfold ServiceModel.usage_query.
      apply Nat.eqb_eq in Hu.
      destruct key as [k|]; [|exact Hu].
      destruct (String.eqb_spec k "") as [_|Hk]; [exact Hu|].
      rewrite Hu, (Hkey k eq_refl Hk), String.eqb_refl. reflexivity.
  - apply limit_offset_sorted. apply order_by_desc_sorted.
Qed.

Lemma getUserServiceUsages_filter_witness :
  exists rows,
    ServiceModel.getUserServiceUsages 0%nat (Some (-1)) None
      (Some "ai-image-edit") used_once
    = (Normal rows, used_once) /\
    List.length rows = 1%nat.
Proof.
  destruct (getUserServiceUsages_filter used_once 0%nat (-1)
              (Some "ai-image-edit") ltac:(lia)) as [rows (Hrun & _)].
  exists rows. split; [exact Hrun|].
  vm_compute in Hrun. injection Hrun as <-. reflexivity.
Defined.

(** ** Lookups after writes *)

#[local] Transparent Db.account_of Db.payment_of Db.usage_of.

Lemma find_app_found :
  forall (A : Type) (p : A -> bool) (l l' : list A) (x : A),
    find p l = Some x -> find p (l ++ l') = Some x.
Proof.
  intros A p l l' x. induction l as [|y l IH]; cbn [find app]; [discriminate|].
  destruct (p y); [exact (fun H => H)|exact IH].
Qed.

Lemma find_app_missing :
  forall (A : Type) (p : A -> bool) (l : list A) (y : A),
    existsb p l = false -> find p (l ++ [y]) = if p y then Some y else None.
Proof.
  intros A p l y. induction l as [|x l IH]; cbn [find app existsb];
    [reflexivity|].
  destruct (p x); cbn [orb]; [discriminate|exact IH].
Qed.

Lemma find_map_other :
  forall (A : Type) (key : A -> nat) (f : A -> A) (k : nat) (l : list A),
    (forall x, key (f x) = key x) ->
    (forall x, key x = k -> f x = x) ->
    find (fun x => Nat.eqb (key x) k) (map f l)
    = find (fun x => Nat.eqb (key x) k) l.
Proof.
  intros A key f k l Hkey Hsame. induction l as [|x l IH]; cbn [find map];
    [reflexivity|].
  rewrite Hkey. destruct (Nat.eqb_spec (key x) k) as [E|_].
  - rewrite (Hsame x E). reflexivity.
  - exact IH.
Qed.

Lemma set_status_other :
  forall id id' st tx ts p,
    id' <> id -> pay_id p = id -> PaymentModel.set_status id' st tx ts p = p.
Proof.
  intros id id' st tx ts p Hne Hp. unfold PaymentModel.set_status.
  destruct (Nat.eqb_spec (pay_id p) id'); [congruence|reflexivity].
Qed.

Lemma set_usage_status_other :
  forall id id' st u,
    id' <> id -> su_id u = id -> ServiceModel.set_usage_status id' st u = u.
Proof.
  intros id id' st u Hne Hu. unfold ServiceModel.set_usage_status.
  destruct (Nat.eqb_spec (su_id u) id'); [congruence|reflexivity].
Qed.

(** ** Payments *)



(** X9. A payment whose status is not pending is final: no request
    changes the row found under its id. *)
Theorem settled_payment_is_final :
  forall w c id payment,
    idle w ->
    Db.payment_of id (db w) = Some payment ->
    pay_status payment <> pending ->
    Db.payment_of id (db (perform c w)) = Some payment.
Proof.
  intros w c id payment Hidle Hp Hs.
  destruct c as [name mail password phone
                | userId amount type description order
                | userId amount method rate
                | paymentId status txid
                | userId key used ustatus detail
                | userId key used detail
                | serviceUsageId reason]; cbn [perform].
  - rewrite createUser_run. cbv zeta.
    destruct (Db.user_conflict _ (db w)); [exact Hp|].
    destruct (Db.account_conflict _ (db w)); exact Hp.
  - rewrite (updateUserBalance_idle w _ _ _ _ _ Hidle).
    destruct (Db.account_of userId (db w)) as [account|]; [|exact Hp].
    destruct (is_withdrawal type && (balance account + amount <? 0)); [exact Hp|].
    cbv zeta. destruct (Db.transaction_conflict _ (db w)); exact Hp.
  - rewrite createPayment_run. cbv zeta.
    destruct (Db.payment_conflict _ (db w)); [exact Hp|].
    unfold world_after, Db.payment_of; cbn [snd db with_db payments Db.add_payment].
    apply find_app_found. exact Hp.
  - rewrite (updatePaymentStatus_idle w _ _ _ Hidle).
    destruct (Db.payment_of paymentId (db w)) as [other|] eqn:Ho; [|exact Hp].
    destruct (pay_status other) eqn:Hso; cbn [is_pending negb]; try exact Hp.
    destruct (is_completed status); [exact Hp|].
    assert (Hne : paymentId <> id).
    { intro E. subst paymentId. rewrite Hp in Ho. injection Ho as <-. congruence. }
    unfold world_after, Db.payment_of; cbn [snd db with_db payments Db.map_payments].
    rewrite (find_map_other _ pay_id _ id (payments (db w))
               (set_status_key paymentId status txid (now w))
               (fun x Hx => set_status_other id paymentId status txid (now w) x
                              Hne Hx)).
    exact Hp.
  - rewrite createServiceUsage_run. cbv zeta.
    destruct (Db.usage_conflict _ (db w)); exact Hp.
  - rewrite (consumeService_idle w _ _ _ _ Hidle). unfold consume_failure.
    destruct (Db.account_of userId (db w)) as [account|];
      [destruct (used <=? balance account)|];
      destruct (Db.usage_conflict _ (db w)); exact Hp.
  - rewrite (refundServiceConsumption_idle w _ _ Hidle).
    destruct (Db.usage_of serviceUsageId (db w)) as [usage|]; [|exact Hp].
    destruct (negb (is_usage_success (su_status usage))); [exact Hp|].
    destruct (refund_window_ms <? now w - su_createdAt usage); [exact Hp|].
    cbv zeta. destruct (Db.transaction_conflict _ (db w)); exact Hp.
Qed.

Lemma settled_payment_is_final_witness :
  idle payment_failed /\
  exists payment,
    Db.payment_of 2%nat (db payment_failed) = Some payment /\
    pay_status payment = failed /\
    Db.payment_of 2%nat
      (db (perform (UpdatePaymentStatus 2%nat refunded None) payment_failed))
    = Some payment.
Proof.
  assert (I : idle payment_failed) by reflexivity.
  split; [exact I|].
  eexists. split; [vm_compute; reflexivity|]. split; [reflexivity|].
  apply (settled_payment_is_final payment_failed
           (UpdatePaymentStatus 2%nat refunded None) 2%nat _ I).
  - vm_compute; reflexivity.
  - discriminate.
Defined.

(** X10. The payment callback on a pending payment.  A failure report
    marks it failed, stores the gateway's transaction id and returns
    [true]; a success report returns [false] and changes nothing.  No
    report changes an account or the audit log, and a report for an unknown
    payment returns [false]. *)
Theorem handlePaymentCallback_outcomes :
  forall w paymentId txid,
    idle w ->
    (Db.payment_of paymentId (db w) = None ->
     forall success,
       PaymentModel.handlePaymentCallback paymentId txid success w
       = (Normal false, w))
    /\
    (forall payment,
       Db.payment_of paymentId (db w) = Some payment ->
       pay_status payment = pending ->
       PaymentModel.handlePaymentCallback paymentId txid true w = (Normal false, w)
       /\
       let run := PaymentModel.handlePaymentCallback paymentId txid false w in
       let w' := world_after run in
       result run = Normal true /\
       Db.payment_of paymentId (db w')
       = Some {| pay_id := pay_id payment; pay_userId := pay_userId payment;
                 pay_amount := pay_amount payment; credits := credits payment;
                 pay_status := failed; method := method payment;
                 transactionId := Some txid;
                 pay_createdAt := pay_createdAt payment;
                 pay_updatedAt := now w |} /\
       user_accounts (db w') = user_accounts (db w) /\
       credit_transactions (db w') = credit_transactions (db w))
    /\
    (forall success,
       let w' := world_after (PaymentModel.handlePaymentCallback paymentId txid
                                success w) in
       user_accounts (db w') = user_accounts (db w) /\
       credit_transactions (db w') = credit_transactions (db w)).
Proof.
  intros w paymentId txid Hidle.
  unfold PaymentModel.handlePaymentCallback.
  split; [|split].
  - intros Hp success.
    rewrite (updatePaymentStatus_idle w _ _ _ Hidle), Hp. reflexivity.
  - intros payment Hp Hs. split.
    + apply updatePaymentStatus_completed_fails. exact Hidle.
    + cbv zeta. rewrite (updatePaymentStatus_idle w _ _ _ Hidle), Hp, Hs.
      cbn [is_pending negb is_completed].
      unfold result, world_after; cbn [fst snd db with_db].
      split; [reflexivity|]. split; [|split; reflexivity].
      unfold Db.payment_of in *. cbn [payments Db.map_payments].
      rewrite (find_map_same_key _ pay_id _ _ _ _
                 (set_status_key paymentId failed (Some txid) (now w)) Hp).
      apply find_key in Hp. destruct Hp as [_ Hk].
      unfold PaymentModel.set_status. rewrite Hk, Nat.eqb_refl. reflexivity.
  - intros success. cbv zeta.
    rewrite (updatePaymentStatus_idle w _ _ _ Hidle).
    destruct (Db.payment_of paymentId (db w)) as [payment|];
      [|split; reflexivity].
    destruct (negb (is_pending (pay_status payment))); [split; reflexivity|].
    destruct success; cbn [is_completed]; split; reflexivity.
Qed.

Lemma handlePaymentCallback_outcomes_witness :
  idle (world_after payment_created) /\
  result (PaymentModel.handlePaymentCallback 2%nat "txn1" false
            (world_after payment_created))
  = Normal true.
Proof.
  assert (I : idle (world_after payment_created)) by reflexivity.
  split; [exact I|].
  destruct (handlePaymentCallback_outcomes (world_after payment_created) 2%nat
              "txn1" I) as (_ & H & _).
  eapply H; [vm_compute; reflexivity|reflexivity].
Defined.

(** ** Usages and refunds *)

(** X11. A usage is refunded at most once: after a successful refund every
    later refund of the same usage, at any time and for any reason, returns
    [false] and changes nothing. *)
Theorem refund_at_most_once :
  forall w serviceUsageId reason usage later reason',
    well_formed w ->
    refundable w serviceUsageId usage ->
    let first := ServiceModel.refundServiceConsumption serviceUsageId reason w in
    let w1 := with_now later (world_after first) in
    result first = Normal true /\
    ServiceModel.refundServiceConsumption serviceUsageId reason' w1
    = (Normal false, w1).
Proof.
  intros w serviceUsageId reason usage later reason' Hwf (Hu & Hs & Hwin)
    first w1.
  assert (Hfirst : first
                   = (Normal true,
                      with_db (Db.add_transaction
                                 (refund_row w serviceUsageId reason usage)
                                 (Db.map_usages
                                    (ServiceModel.set_usage_status serviceUsageId
                                       usage_refunded)
                                    (Db.map_accounts
                                       (ServiceModel.add_balance (su_userId usage)
                                          (creditsUsed usage) (now w)) (db w))))
                        (bump 1 w))).
  { subst first.
    rewrite (refundServiceConsumption_idle w serviceUsageId reason (proj1 Hwf)),
      Hu, Hs.
    cbn [is_usage_success negb].
    destruct (Z.ltb_spec refund_window_ms (now w - su_createdAt usage)); [lia|].
    cbv zeta.
    rewrite (well_formed_transaction_id w
               (refund_row w serviceUsageId reason usage) Hwf eq_refl).
    reflexivity. }
  split; [rewrite Hfirst; reflexivity|].
  assert (Hidle1 : idle w1).
  { subst w1. rewrite Hfirst. exact (proj1 Hwf). }
  rewrite (refundServiceConsumption_idle w1 serviceUsageId reason' Hidle1).
  assert (Hu1 : Db.usage_of serviceUsageId (db w1)
                = Some {| su_id := su_id usage; su_userId := su_userId usage;
                          serviceKey := serviceKey usage;
                          creditsUsed := creditsUsed usage;
                          su_status := usage_refunded; details := details usage;
                          su_createdAt := su_createdAt usage |}).
  { subst w1. rewrite Hfirst.
    apply (usage_after_set_status serviceUsageId usage_refunded
             (Db.map_accounts
                (ServiceModel.add_balance (su_userId usage) (creditsUsed usage)
                   (now w)) (db w)) usage Hu). }
  rewrite Hu1. reflexivity.
Qed.

Lemma refund_at_most_once_witness :
  well_formed used_once /\
  ServiceModel.refundServiceConsumption 2%nat (Some "again") refunded_once
  = (Normal false, refunded_once).
Proof.
  assert (W : well_formed used_once) by (split; reflexivity).
  split; [exact W|].
  assert (R : refundable used_once 2%nat
                {| su_id := 2%nat; su_userId := 0%nat; serviceKey := "ai-image-edit";
                   creditsUsed := 5; su_status := usage_success; details := None;
                   su_createdAt := 1000 |}).
  { split; [reflexivity|]. split; [reflexivity|]. cbn. discriminate. }
  exact (proj2 (refund_at_most_once used_once 2%nat None _ 1000 (Some "again") W R)).
Defined.

(** X12. A usage that is failed or refunded is final: no request changes
    the row found under its id. *)
Theorem closed_usage_is_final :
  forall w c id usage,
    idle w ->
    Db.usage_of id (db w) = Some usage ->
    su_status usage <> usage_success ->
    Db.usage_of id (db (perform c w)) = Some usage.
Proof.
  intros w c id usage Hidle Hu Hs.
  destruct c as [name mail password phone
                | userId amount type description order
                | userId amount method rate
                | paymentId status txid
                | userId key used ustatus detail
                | userId key used detail
                | serviceUsageId reason]; cbn [perform].
  - rewrite createUser_run. cbv zeta.
    destruct (Db.user_conflict _ (db w)); [exact Hu|].
    destruct (Db.account_conflict _ (db w)); exact Hu.
  - rewrite (updateUserBalance_idle w _ _ _ _ _ Hidle).
    destruct (Db.account_of userId (db w)) as [account|]; [|exact Hu].
    destruct (is_withdrawal type && (balance account + amount <? 0)); [exact Hu|].
    cbv zeta. destruct (Db.transaction_conflict _ (db w)); exact Hu.
  - rewrite createPayment_run. cbv zeta.
    destruct (Db.payment_conflict _ (db w)); exact Hu.
  - rewrite (updatePaymentStatus_idle w _ _ _ Hidle).
    destruct (Db.payment_of paymentId (db w)) as [payment|]; [|exact Hu].
    destruct (negb (is_pending (pay_status payment))); [exact Hu|].
    destruct (is_completed status); exact Hu.
  - rewrite createServiceUsage_run. cbv zeta.
    destruct (Db.usage_conflict _ (db w)); [exact Hu|].
    unfold world_after, Db.usage_of;
      cbn [snd db with_db service_usages Db.add_usage].
    apply find_app_found. exact Hu.
  - rewrite (consumeService_idle w _ _ _ _ Hidle). unfold consume_failure.
    destruct (Db.account_of userId (db w)) as [account|];
      [destruct (used <=? balance account)|];
      (destruct (Db.usage_conflict _ (db w)); [exact Hu|]);
      unfold world_after, Db.usage_of;
      cbn [snd db with_db service_usages Db.add_usage];
      apply find_app_found; exact Hu.
  - rewrite (refundServiceConsumption_idle w _ _ Hidle).
    destruct (Db.usage_of serviceUsageId (db w)) as [other|] eqn:Ho; [|exact Hu].
    destruct (su_status other) eqn:Hso; cbn [is_usage_success negb];
      try exact Hu.
    destruct (refund_window_ms <? now w - su_createdAt other); [exact Hu|].
    cbv zeta. destruct (Db.transaction_conflict _ (db w)); [exact Hu|].
    assert (Hne : serviceUsageId <> id).
    { intro E. subst serviceUsageId. rewrite Hu in Ho. injection Ho as <-.
      congruence. }
    unfold world_after, Db.usage_of;
      cbn [snd db with_db service_usages Db.add_transaction Db.map_usages
           Db.map_accounts].
    rewrite (find_map_other _ su_id _ id (service_usages (db w))
               (set_usage_status_key serviceUsageId usage_refunded)
               (fun x Hx => set_usage_status_other id serviceUsageId
                              usage_refunded x Hne Hx)).
    exact Hu.
Qed.

Lemma closed_usage_is_final_witness :
  idle refunded_once /\
  exists usage,
    Db.usage_of 2%nat (db refunded_once) = Some usage /\
    su_status usage = usage_refunded /\
    Db.usage_of 2%nat
      (db (perform (ConsumeService 0%nat "ai-image-edit" 5 None) refunded_once))
    = Some usage.
Proof.
  assert (I : idle refunded_once) by reflexivity.
  split; [exact I|].
  eexists. split; [vm_compute; reflexivity|]. split; [reflexivity|].
  apply (closed_usage_is_final refunded_once
           (ConsumeService 0%nat "ai-image-edit" 5 None) 2%nat _ I).
  - vm_compute; reflexivity.
  - discriminate.
Defined.

(** X13. [consumeService] never debits.  In a well-formed world every call
    returns [success: false] with one of two messages, records exactly one
    failed usage carrying that message, and leaves the accounts and the
    audit log as they were. *)
Theorem consumeService_never_debits :
  forall w userId key used detail,
    well_formed w ->
    let run := ServiceModel.consumeService userId key used detail w in
    let w' := world_after run in
    exists errorMessage,
      (errorMessage = "Insufficient balance"
       \/ errorMessage = Db.nested_begin_error) /\
      result run
      = Normal {| ServiceModel.success := false;
                  ServiceModel.message := Some errorMessage;
                  ServiceModel.serviceUsage := None |} /\
      user_accounts (db w') = user_accounts (db w) /\
      credit_transactions (db w') = credit_transactions (db w) /\
      service_usages (db w')
      = (service_usages (db w)
         ++ [failed_usage w userId key used detail errorMessage])%list.
Proof.
  intros w userId key used detail Hwf run w'. subst w' run.
  rewrite (consumeService_idle w userId key used detail (proj1 Hwf)).
  assert (Hfail : forall msg,
             consume_failure userId key used detail msg w
             = (Normal {| ServiceModel.success := false;
                          ServiceModel.message := Some msg;
                          ServiceModel.serviceUsage := None |},
                with_db (Db.add_usage (failed_usage w userId key used detail msg)
                           (db w)) (bump 1 w))).
  { intro msg.
    pose proof (well_formed_usage_id w
                  (failed_usage w userId key used detail msg) Hwf eq_refl) as F.
    unfold failed_usage in F. unfold consume_failure. cbv zeta.
    rewrite F. reflexivity. }
  destruct (Db.account_of userId (db w)) as [account|];
    [destruct (used <=? balance account)|].
  - exists Db.nested_begin_error. rewrite Hfail.
    split; [right; reflexivity|]. repeat split.
  - exists "Insufficient balance". rewrite Hfail.
    split; [left; reflexivity|]. repeat split.
  - exists "Insufficient balance". rewrite Hfail.
    split; [left; reflexivity|]. repeat split.
Qed.

Lemma consumeService_never_debits_witness :
  well_formed rewarded /\
  user_accounts
    (db (world_after (ServiceModel.consumeService 0%nat "resize-image" 2 None
                        rewarded)))
  = user_accounts (db rewarded).
Proof.
  assert (W : well_formed rewarded) by (split; reflexivity).
  split; [exact W|].
  destruct (consumeService_never_debits rewarded 0%nat "resize-image" 2 None W)
    as [msg (_ & _ & Hacc & _)].
  exact Hacc.
Defined.

(** ** The route helpers on a user without account *)

(** X14. For a user without an account the two [checkUserBalance] helpers
    differ: the one built on [checkBalance] reports an insufficient balance
    for every service name, the one that reads the account itself treats
    the missing account as a balance of 0 and lets every unlisted service
    (price 0) pass, while it refuses the services with a positive price. *)
Theorem checkUserBalance_without_account :
  forall w userId serviceName,
    Db.account_of userId (db w) = None ->
    (exists required,
       ServiceRoutes.checkUserBalance userId serviceName w
       = (Normal {| ServiceRoutes.hasSufficientBalance := false;
                    ServiceRoutes.requiredCredits := required |}, w))
    /\
    (own_property SampleServiceRoutes.SERVICE_PRICES serviceName = None ->
     ~ In serviceName object_prototype_properties ->
     SampleServiceRoutes.checkUserBalance userId serviceName w
     = (Normal {| ServiceRoutes.hasSufficientBalance := true;
                  ServiceRoutes.requiredCredits := JsNumber 0 |}, w))
    /\
    (forall price,
       own_property SampleServiceRoutes.SERVICE_PRICES serviceName = Some price ->
       0 < price ->
       SampleServiceRoutes.checkUserBalance userId serviceName w
       = (Normal {| ServiceRoutes.hasSufficientBalance := false;
                    ServiceRoutes.requiredCredits := JsNumber price |}, w)).
Proof.
  intros w userId serviceName Hacc.
  unfold ServiceRoutes.checkUserBalance, SampleServiceRoutes.checkUserBalance,
    AccountModel.checkBalance, AccountModel.getUserAccount, bind, Db.select, ret.
  rewrite Hacc. split; [eexists; reflexivity|]. split.
  - intros Hown Hproto. rewrite (unlisted_price _ serviceName Hown Hproto).
    reflexivity.
  - intros price Hown Hpos. unfold get_property. rewrite Hown.
    unfold js_or, truthy.
    destruct (Z.eqb_spec price 0) as [E|_]; [lia|]. cbn [negb js_ge].
    destruct (Z.leb_spec price 0); [lia|reflexivity].
Qed.

Lemma checkUserBalance_without_account_witness :
  Db.account_of 7%nat (db signed_up) = None /\
  result (SampleServiceRoutes.checkUserBalance 7%nat "upscale" signed_up)
  = Normal {| ServiceRoutes.hasSufficientBalance := true;
              ServiceRoutes.requiredCredits := JsNumber 0 |} /\
  result (SampleServiceRoutes.checkUserBalance 7%nat "ai-image-edit" signed_up)
  = Normal {| ServiceRoutes.hasSufficientBalance := false;
              ServiceRoutes.requiredCredits := JsNumber 5 |}.
Proof.
  assert (A : Db.account_of 7%nat (db signed_up) = None) by reflexivity.
  split; [exact A|].
  destruct (checkUserBalance_without_account signed_up 7%nat "upscale" A)
    as (_ & Hfree & _).
  destruct (checkUserBalance_without_account signed_up 7%nat "ai-image-edit" A)
    as (_ & _ & Hpriced).
  split.
  - rewrite Hfree; [reflexivity|reflexivity|cbn; intuition discriminate].
  - rewrite (Hpriced 5 eq_refl ltac:(lia)). reflexivity.
Defined.

(** ** Users *)

Lemma option_eqb_true :
  forall a b, Db.option_eqb a b = true <-> exists p, b = Some p /\ a = Some p.
Proof.
  intros [x|] [y|]; cbn; split; try discriminate;
    try (intros [p [H1 H2]]; discriminate).
  - intro H. apply String.eqb_eq in H. subst y. exists x. split; reflexivity.
  - intros [p [H1 H2]]. injection H1 as ->. injection H2 as ->.
    apply String.eqb_refl.
Qed.

(** With the counter ahead of the stored ids, the UNIQUE columns decide
    whether the INSERT into [users] fails. *)
Lemma user_conflict_taken :
  forall w name mail tel verified created updated,
    well_formed w ->
    Db.user_conflict
      {| user_id := next_uuid w; username := name; email := mail; phone := tel;
         isVerified := verified; user_createdAt := created;
         user_updatedAt := updated |} (db w) = true
    <-> taken (db w) name mail tel.
Proof.
  intros w name mail tel verified created updated [_ Hids].
  apply ids_below_tables in Hids. destruct Hids as (Hu & _).
  rewrite forallb_forall in Hu.
  unfold Db.user_conflict, taken. rewrite existsb_exists. cbn.
  split.
  - intros [x [Hin H]]. exists x. split; [exact Hin|].
    rewrite !orb_true_iff in H. destruct H as [[[H|H]|H]|H].
    + apply Nat.eqb_eq in H. specialize (Hu x Hin). apply Nat.ltb_lt in Hu. lia.
    + left. apply String.eqb_eq. exact H.
    + right; left. apply String.eqb_eq. exact H.
    + right; right. apply option_eqb_true in H. exact H.
  - intros [x [Hin H]]. exists x. split; [exact Hin|].
    rewrite !orb_true_iff. destruct H as [H|[H|H]].
    + left; left; right. apply String.eqb_eq. exact H.
    + left; right. apply String.eqb_eq. exact H.
    + right. apply option_eqb_true. exact H.
Qed.

Lemma well_formed_account_id :
  forall w account,
    well_formed w -> acc_userId account = next_uuid w ->
    Db.account_conflict account (db w) = false.
Proof.
  intros w account [_ H] Hid. apply ids_below_tables in H.
  unfold Db.account_conflict. rewrite Hid.
  apply (key_below_no_conflict _ acc_userId). tauto.
Qed.

(** X15. [createUser] in a well-formed world has two outcomes.  When the
    username, the email or the phone number is taken it throws and the
    database is as before; otherwise it stores the user, verified, and an
    account of 15 credits under the same new id, and writes no credit
    transaction. *)
Theorem createUser_outcomes :
  forall w name mail password tel,
    well_formed w ->
    let run := UserModel.createUser name mail password tel w in
    let w' := world_after run in
    let user := {| user_id := next_uuid w; username := name; email := mail;
                   phone := tel; isVerified := true;
                   user_createdAt := now w; user_updatedAt := now w |} in
    (taken (db w) name mail tel ->
     (exists message, result run = Throw message) /\ db w' = db w)
    /\
    (~ taken (db w) name mail tel ->
     result run = Normal user /\
     users (db w') = (users (db w) ++ [user])%list /\
     user_accounts (db w')
     = (user_accounts (db w)
        ++ [{| acc_userId := next_uuid w; balance := 15;
               lastUpdated := now w |}])%list /\
     credit_transactions (db w') = credit_transactions (db w)).
Proof.
  intros w name mail password tel Hwf run w' user. subst w' run.
  rewrite createUser_run. cbv zeta. fold user.
  pose proof (user_conflict_taken w name mail tel true (now w) (now w) Hwf) as Hc.
  fold user in Hc.
  destruct (Db.user_conflict user (db w)) eqn:E.
  - split.
    + intros _. split; [eexists; reflexivity|reflexivity].
    + intro N. exfalso. apply N. apply Hc. reflexivity.
  - rewrite (well_formed_account_id w
               {| acc_userId := next_uuid w; balance := 15; lastUpdated := now w |}
               Hwf eq_refl).
    split.
    + intro T. apply Hc in T. discriminate.
    + intros _. repeat split.
Qed.

Lemma createUser_outcomes_witness :
  well_formed signed_up /\
  taken (db signed_up) "alice" "other@example.com" None /\
  db (world_after (UserModel.createUser "alice" "other@example.com" "Passw0rd!"
                     None signed_up))
  = db signed_up.
Proof.
  assert (W : well_formed signed_up) by (split; reflexivity).
  assert (T : taken (db signed_up) "alice" "other@example.com" None).
  { eexists. split; [left; reflexivity|]. left. reflexivity. }
  split; [exact W|]. split; [exact T|].
  destruct (createUser_outcomes signed_up "alice" "other@example.com" "Passw0rd!"
              None W) as [H _].
  exact (proj2 (H T)).
Defined.

Lemma not_taken_free :
  forall t name mail tel,
    ~ taken t name mail tel ->
    existsb (fun u => String.eqb (username u) name) (users t) = false /\
    existsb (fun u => String.eqb (email u) mail) (users t) = false.
Proof.
  intros t name mail tel N. split.
  - destruct (existsb _ (users t)) eqn:E; [|reflexivity].
    exfalso. apply N. apply existsb_exists in E. destruct E as [x [Hin H]].
    exists x. split; [exact Hin|]. left. apply String.eqb_eq. exact H.
  - destruct (existsb _ (users t)) eqn:E; [|reflexivity].
    exfalso. apply N. apply existsb_exists in E. destruct E as [x [Hin H]].
    exists x. split; [exact Hin|]. right; left. apply String.eqb_eq. exact H.
Qed.

(** X16. After a successful [createUser] the new user is the one found by
    id, by email and by username, the balance of the new account is 15,
    and every user stored before is still found under its id. *)
Theorem createUser_then_lookups :
  forall w name mail password tel,
    well_formed w ->
    ~ taken (db w) name mail tel ->
    let w' := world_after (UserModel.createUser name mail password tel w) in
    let user := {| user_id := next_uuid w; username := name; email := mail;
                   phone := tel; isVerified := true;
                   user_createdAt := now w; user_updatedAt := now w |} in
    UserModel.getUserById (next_uuid w) w' = (Normal (Some user), w') /\
    UserModel.getUserByEmail mail w' = (Normal (Some user), w') /\
    UserModel.getUserByUsername name w' = (Normal (Some user), w') /\
    AccountModel.getBalance (next_uuid w) w' = (Normal 15, w') /\
    (forall id earlier,
       UserModel.getUserById id w = (Normal (Some earlier), w) ->
       UserModel.getUserById id w' = (Normal (Some earlier), w')).
Proof.
  intros w name mail password tel Hwf N w' user.
  assert (Hw' : w' = with_db (Db.add_account
                               {| acc_userId := next_uuid w; balance := 15;
                                  lastUpdated := now w |}
                               (Db.add_user user (db w))) (bump 2 w)).
  { subst w'. rewrite createUser_run. cbv zeta. fold user.
    pose proof (user_conflict_taken w name mail tel true (now w) (now w) Hwf) as Hc.
    fold user in Hc.
    destruct (Db.user_conflict user (db w)) eqn:E;
      [exfalso; apply N; apply Hc; reflexivity|].
    rewrite (well_formed_account_id w
               {| acc_userId := next_uuid w; balance := 15; lastUpdated := now w |}
               Hwf eq_refl). reflexivity. }
  destruct (not_taken_free _ _ _ _ N) as [Hname Hmail].
  pose proof Hwf as [_ Hids]. apply ids_below_tables in Hids.
  destruct Hids as (Hu & Ha & _).
  apply (key_below_no_conflict _ user_id) in Hu.
  apply (key_below_no_conflict _ acc_userId) in Ha.
  unfold UserModel.getUserById, UserModel.getUserByEmail,
    UserModel.getUserByUsername, AccountModel.getBalance,
    AccountModel.getUserAccount, bind, Db.select, ret, Db.account_of.
  rewrite Hw'. cbn [db with_db users user_accounts Db.add_account Db.add_user].
  rewrite (find_app_missing _ (fun u => Nat.eqb (user_id u) (next_uuid w)) _ user Hu).
  rewrite (find_app_missing _ (fun u => String.eqb (email u) mail) _ user Hmail).
  rewrite (find_app_missing _ (fun u => String.eqb (username u) name) _ user Hname).
  rewrite (find_app_missing _ (fun a => Nat.eqb (acc_userId a) (next_uuid w)) _ _ Ha).
  cbn [user_id email username acc_userId balance user].
  rewrite Nat.eqb_refl, !String.eqb_refl.
  repeat (split; [reflexivity|]).
  intros id earlier H. injection H as H.
  rewrite (find_app_found _ _ _ _ _ H). reflexivity.
Qed.

Lemma createUser_then_lookups_witness :
  well_formed signed_up /\
  ~ taken (db signed_up) "bob" "bob@example.com" None /\
  result (UserModel.getUserByEmail "bob@example.com"
            (world_after (UserModel.createUser "bob" "bob@example.com"
                            "Passw0rd!" None signed_up)))
  = Normal (Some {| user_id := 2%nat; username := "bob";
                    email := "bob@example.com"; phone := None;
                    isVerified := true; user_createdAt := 1000;
                    user_updatedAt := 1000 |}).
Proof.
  assert (W : well_formed signed_up) by (split; reflexivity).
  assert (N : ~ taken (db signed_up) "bob" "bob@example.com" None).
  { intros [x [[<-|[]] [H|[H|[p [H _]]]]]]; discriminate. }
  split; [exact W|]. split; [exact N|].
  destruct (createUser_then_lookups signed_up "bob" "bob@example.com" "Passw0rd!"
              None W N) as (_ & Hmail & _).
  rewrite Hmail. reflexivity.
Defined.

Lemma directory_frame :
  forall t t',
    users t' = users t ->
    map acc_userId (user_accounts t') = map acc_userId (user_accounts t) ->
    directory_consistent t -> directory_consistent t'.
Proof.
  intros t t' Hu Ha (H1 & H2 & H3 & H4).
  unfold directory_consistent. rewrite Hu, Ha. tauto.
Qed.

Lemma map_accounts_keys :
  forall f l,
    (forall a, acc_userId (f a) = acc_userId a) ->
    map acc_userId (map f l) = map acc_userId l.
Proof.
  intros f l Hf. rewrite map_map. apply map_ext. exact Hf.
Qed.

Lemma NoDup_snoc :
  forall (A : Type) (l : list A) (x : A),
    NoDup l -> ~ In x l -> NoDup (l ++ [x]).
Proof.
  intros A l x Hl Hx.
  apply (Permutation_NoDup (Permutation_cons_append l x)).
  constructor; assumption.
Qed.

Lemma not_in_column :
  forall (A : Type) (column : A -> string) (s : string) (l : list A),
    existsb (fun x => String.eqb (column x) s) l = false ->
    ~ In s (map column l).
Proof.
  intros A column s l H Hin. apply in_map_iff in Hin.
  destruct Hin as [x [Hx Hin]].
  assert (E : existsb (fun x => String.eqb (column x) s) l = true).
  { apply existsb_exists. exists x. split; [exact Hin|].
    apply String.eqb_eq. exact Hx. }
  congruence.
Qed.

Lemma not_in_ids :
  forall (A : Type) (key : A -> nat) (n : nat) (l : list A),
    forallb (fun x => Nat.ltb (key x) n) l = true -> ~ In n (map key l).
Proof.
  intros A key n l H Hin. apply in_map_iff in Hin.
  destruct Hin as [x [Hx Hin]]. rewrite forallb_forall in H.
  specialize (H x Hin). apply Nat.ltb_lt in H. lia.
Qed.

Lemma directory_createUser :
  forall w name mail password tel,
    well_formed w ->
    directory_consistent (db w) ->
    directory_consistent
      (db (world_after (UserModel.createUser name mail password tel w))).
Proof.
  intros w name mail password tel Hwf (H1 & H2 & H3 & H4).
  rewrite createUser_run. cbv zeta.
  pose proof (user_conflict_taken w name mail tel true (now w) (now w) Hwf) as Hc.
  destruct (Db.user_conflict _ (db w)) eqn:E.
  { unfold directory_consistent. cbn. tauto. }
  rewrite (well_formed_account_id w
             {| acc_userId := next_uuid w; balance := 15; lastUpdated := now w |}
             Hwf eq_refl).
  assert (N : ~ taken (db w) name mail tel).
  { intro T. apply Hc in T. discriminate. }
  destruct (not_taken_free _ _ _ _ N) as [Hname Hmail].
  pose proof Hwf as [_ Hids]. apply ids_below_tables in Hids.
  destruct Hids as (Hu & _).
  unfold directory_consistent, world_after.
  cbn [snd db with_db users user_accounts Db.add_account Db.add_user].
  rewrite !map_app. cbn [map user_id acc_userId username email].
  split; [rewrite H1; reflexivity|].
  split; [apply NoDup_snoc; [exact H2|exact (not_in_ids _ user_id _ _ Hu)]|].
  split; apply NoDup_snoc; try assumption.
  - exact (not_in_column _ username name _ Hname).
  - exact (not_in_column _ email mail _ Hmail).
Qed.

Lemma directory_perform :
  forall w c,
    well_formed w ->
    directory_consistent (db w) ->
    directory_consistent (db (perform c w)).
Proof.
  intros w c Hwf H. pose proof (proj1 Hwf) as Hidle.
  destruct c as [name mail password tel
                | userId amount type description order
                | userId amount method rate
                | paymentId status txid
                | userId key used ustatus detail
                | userId key used detail
                | serviceUsageId reason]; cbn [perform].
  - apply directory_createUser; assumption.
  - rewrite (updateUserBalance_idle w _ _ _ _ _ Hidle).
    destruct (Db.account_of userId (db w)) as [account|]; [|exact H].
    destruct (is_withdrawal type && (balance account + amount <? 0)); [exact H|].
    cbv zeta. destruct (Db.transaction_conflict _ (db w)); [exact H|].
    apply (directory_frame (db w)); [reflexivity| |exact H].
    apply map_accounts_keys. key_preserved.
  - rewrite createPayment_run. cbv zeta.
    destruct (Db.payment_conflict _ (db w)); exact H.
  - rewrite (updatePaymentStatus_idle w _ _ _ Hidle).
    destruct (Db.payment_of paymentId (db w)) as [payment|]; [|exact H].
    destruct (negb (is_pending (pay_status payment))); [exact H|].
    destruct (is_completed status); exact H.
  - rewrite createServiceUsage_run. cbv zeta.
    destruct (Db.usage_conflict _ (db w)); exact H.
  - rewrite (consumeService_idle w _ _ _ _ Hidle). unfold consume_failure.
    destruct (Db.account_of userId (db w)) as [account|];
      [destruct (used <=? balance account)|];
      destruct (Db.usage_conflict _ (db w)); exact H.
  - rewrite (refundServiceConsumption_idle w _ _ Hidle).
    destruct (Db.usage_of serviceUsageId (db w)) as [usage|]; [|exact H].
    destruct (negb (is_usage_success (su_status usage))); [exact H|].
    destruct (refund_window_ms <? now w - su_createdAt usage); [exact H|].
    cbv zeta. destruct (Db.transaction_conflict _ (db w)); [exact H|].
    apply (directory_frame (db w)); [reflexivity| |exact H].
    apply map_accounts_keys. key_preserved.
Qed.

(** X17. In every reachable world users and accounts match one to one, in
    the order of registration, and no user id, username or email is stored
    twice: each user owns exactly one account. *)
Theorem users_and_accounts_match :
  forall w,
    reachable w ->
    map user_id (users (db w)) = map acc_userId (user_accounts (db w)) /\
    NoDup (map user_id (users (db w))) /\
    NoDup (map username (users (db w))) /\
    NoDup (map email (users (db w))).
Proof.
  intros w H. change (directory_consistent (db w)).
  induction H as [t0 | w c Hreach IH _ | w t _ IH _].
  - unfold directory_consistent. cbn. repeat split; constructor.
  - apply directory_perform; [|exact IH].
    apply reachable_well_formed. exact Hreach.
  - exact IH.
Qed.

Lemma users_and_accounts_match_witness :
  reachable rewarded /\
  map user_id (users (db rewarded)) = map acc_userId (user_accounts (db rewarded)).
Proof.
  split; [exact reachable_rewarded|].
  exact (proj1 (users_and_accounts_match rewarded reachable_rewarded)).
Defined.

(** ** Registration *)

Lemma allowed_is_dot :
  forall c, UserRoutes.allowed c = true -> UserRoutes.dot c = true.
Proof.
  intros [[] [] [] [] [] [] [] []]; vm_compute; intro H;
    first [reflexivity | discriminate H].
Qed.

Lemma run_reaches_end :
  forall class s,
    Nat.eqb (UserRoutes.run class s) (String.length s) = true <->
    (forall c, In c (list_ascii_of_string s) -> class c = true).
Proof.
  intros class s. induction s as [|c s IH]; cbn [UserRoutes.run String.length
                                                  list_ascii_of_string].
  - split; [intros _ c []|reflexivity].
  - destruct (class c) eqn:E.
    + cbn [Nat.eqb]. rewrite IH. split.
      * intros H c' [<-|Hc']; [exact E|exact (H c' Hc')].
      * intros H c' Hc'. apply H. right. exact Hc'.
    + split; [discriminate|].
      intro H. specialize (H c (or_introl eq_refl)). congruence.
Qed.

Lemma lookahead_finds :
  forall class s,
    UserRoutes.lookahead class s = true ->
    exists c, In c (list_ascii_of_string s) /\ class c = true.
Proof.
  intros class s. induction s as [|c s IH]; cbn [UserRoutes.lookahead
                                                  list_ascii_of_string];
    [discriminate|].
  intro H. apply orb_true_iff in H. destruct H as [H|H].
  - exists c. split; [left; reflexivity|exact H].
  - apply andb_true_iff in H. destruct (IH (proj2 H)) as [c' [Hin Hc']].
    exists c'. split; [right; exact Hin|exact Hc'].
Qed.

Lemma lookahead_over_dots :
  forall class s,
    (forall c, In c (list_ascii_of_string s) -> UserRoutes.dot c = true) ->
    (exists c, In c (list_ascii_of_string s) /\ class c = true) ->
    UserRoutes.lookahead class s = true.
Proof.
  intros class s. induction s as [|c s IH]; cbn [UserRoutes.lookahead
                                                  list_ascii_of_string];
    intros Hdot [c' [Hin Hc']]; [contradiction|].
  destruct Hin as [<-|Hin]; [rewrite Hc'; reflexivity|].
  rewrite (Hdot c (or_introl eq_refl)). cbn [andb].
  rewrite IH; [apply orb_true_r| |exists c'; split; assumption].
  intros d Hd. apply Hdot. right. exact Hd.
Qed.

Lemma length_list_ascii :
  forall s, List.length (list_ascii_of_string s) = String.length s.
Proof.
  induction s as [|c s IH]; cbn; [reflexivity|]. rewrite IH. reflexivity.
Qed.

(** X18. The password pattern accepts exactly the passwords of at least 8
    characters, all of them letters, digits or one of [@$!%*?&], with at
    least one lowercase letter, one uppercase letter, one digit and one of
    those seven marks.  Any other character (a space, [#], [_], a line
    break, a non-ASCII letter) makes the password weak. *)
Theorem isStrongPassword_characterised :
  forall password,
    UserRoutes.isStrongPassword password = true <->
    (8 <= String.length password)%nat /\
    (forall c, In c (list_ascii_of_string password) -> UserRoutes.allowed c = true) /\
    (exists c, In c (list_ascii_of_string password) /\ UserRoutes.lowercase c = true) /\
    (exists c, In c (list_ascii_of_string password) /\ UserRoutes.uppercase c = true) /\
    (exists c, In c (list_ascii_of_string password) /\ UserRoutes.digit c = true) /\
    (exists c, In c (list_ascii_of_string password) /\ UserRoutes.special c = true).
Proof.
  intro password. unfold UserRoutes.isStrongPassword.
  rewrite !andb_true_iff, run_reaches_end. split.
  - intros (((((Hl & Hu) & Hd) & Hs) & Hlen) & Hall).
    assert (Hrun : UserRoutes.run UserRoutes.allowed password
                   = String.length password).
    { apply Nat.eqb_eq. apply run_reaches_end. exact Hall. }
    rewrite Hrun in Hlen. apply Nat.leb_le in Hlen.
    split; [exact Hlen|]. split; [exact Hall|].
    repeat split; apply lookahead_finds; assumption.
  - intros (Hlen & Hall & Hl & Hu & Hd & Hs).
    assert (Hdot : forall c, In c (list_ascii_of_string password) ->
                             UserRoutes.dot c = true).
    { intros c Hc. apply allowed_is_dot. exact (Hall c Hc). }
    assert (Hrun : UserRoutes.run UserRoutes.allowed password
                   = String.length password).
    { apply Nat.eqb_eq. apply run_reaches_end. exact Hall. }
    repeat split; try (apply lookahead_over_dots; assumption); try exact Hall.
    rewrite Hrun. apply Nat.leb_le. exact Hlen.
Qed.

Lemma find_none_existsb :
  forall (A : Type) (p : A -> bool) (l : list A),
    find p l = None <-> existsb p l = false.
Proof.
  intros A p l. induction l as [|x l IH]; cbn [find existsb]; [tauto|].
  destruct (p x); cbn [orb]; [split; discriminate|exact IH].
Qed.

Lemma phone_clash_only :
  forall t name mail tel,
    find (fun u => String.eqb (email u) mail) (users t) = None ->
    find (fun u => String.eqb (username u) name) (users t) = None ->
    (taken t name mail tel <->
     exists p x, tel = Some p /\ In x (users t) /\ phone x = Some p).
Proof.
  intros t name mail tel Hmail Hname.
  apply find_none_existsb in Hmail. apply find_none_existsb in Hname.
  split.
  - intros [x [Hin [H|[H|[p [Ht Hp]]]]]].
    + exfalso. apply (not_in_column _ username name _ Hname).
      apply in_map_iff. exists x. split; assumption.
    + exfalso. apply (not_in_column _ email mail _ Hmail).
      apply in_map_iff. exists x. split; assumption.
    + exists p, x. repeat split; assumption.
  - intros [p [x (Ht & Hin & Hp)]]. exists x. split; [exact Hin|].
    right; right. exists p. split; assumption.
Qed.

(** A 400 answer: nothing stored, and not one of the other answers. *)
Ltac refused_registration :=
  split; [eexists; reflexivity|];
  split; [discriminate|];
  split; [reflexivity|];
  split; [discriminate|];
  intros (? & ? & ? & ? & _); congruence.

Lemma register_run :
  forall w body,
    let name := UserRoutes.text (UserRoutes.body_username body) in
    let mail := UserRoutes.text (UserRoutes.body_email body) in
    let password := UserRoutes.text (UserRoutes.body_password body) in
    UserRoutes.register body w
    = if UserRoutes.missing (UserRoutes.body_username body)
         || UserRoutes.missing (UserRoutes.body_email body)
         || UserRoutes.missing (UserRoutes.body_password body)
      then (Normal (UserRoutes.BadRequest_400
                      "Username, email, and password are required"), w)
      else if negb (UserRoutes.isStrongPassword password)
      then (Normal (UserRoutes.BadRequest_400 UserRoutes.weak_password_error), w)
      else
        match find (fun u => String.eqb (email u) mail) (users (db w)) with
        | Some _ => (Normal (UserRoutes.BadRequest_400 "Email already in use"), w)
        | None =>
          match find (fun u => String.eqb (username u) name) (users (db w)) with
          | Some _ =>
              (Normal (UserRoutes.BadRequest_400 "Username already in use"), w)
          | None =>
            match UserModel.createUser name mail password
                    (UserRoutes.body_phone body) w with
            | (Normal user, w') => (Normal (UserRoutes.Created_201 (user_id user)), w')
            | (Throw _, w') => (Normal UserRoutes.InternalError_500, w')
            end
          end
        end.
Proof.
  intros w body name mail password.
  unfold UserRoutes.register, try_catch, bind, UserModel.getUserByEmail,
    UserModel.getUserByUsername, Db.select, ret.
  fold name mail password.
  destruct (UserRoutes.missing (UserRoutes.body_username body)
            || UserRoutes.missing (UserRoutes.body_email body)
            || UserRoutes.missing (UserRoutes.body_password body));
    [reflexivity|].
  destruct (negb (UserRoutes.isStrongPassword password)); [reflexivity|].
  cbv beta.
  destruct (find (fun u => String.eqb (email u) mail) (users (db w)));
    [reflexivity|].
  destruct (find (fun u => String.eqb (username u) name) (users (db w)));
    [reflexivity|].
  destruct (UserModel.createUser name mail password (UserRoutes.body_phone body) w)
    as [[user|message] w']; reflexivity.
Qed.

(** X19. The registration route in a well-formed world always answers a
    request whose username, email, password and phone are each a string or
    absent.  A 201 means the password is strong and the user, verified, and an account
    of 15 credits were stored under the id returned; every other answer
    leaves the database as it was; and the answer is 500 exactly when the
    fields are present, the password is strong, email and username are
    free, and the phone number given (the empty string included) is the
    phone number of a stored user. *)
Theorem register_outcomes :
  forall w body,
    well_formed w ->
    let run := UserRoutes.register body w in
    let w' := world_after run in
    let name := UserRoutes.text (UserRoutes.body_username body) in
    let mail := UserRoutes.text (UserRoutes.body_email body) in
    let password := UserRoutes.text (UserRoutes.body_password body) in
    (exists response, result run = Normal response)
    /\
    (forall id,
       result run = Normal (UserRoutes.Created_201 id) ->
       id = next_uuid w /\
       UserRoutes.isStrongPassword password = true /\
       users (db w')
       = (users (db w)
          ++ [{| user_id := id; username := name; email := mail;
                 phone := UserRoutes.body_phone body; isVerified := true;
                 user_createdAt := now w; user_updatedAt := now w |}])%list /\
       user_accounts (db w')
       = (user_accounts (db w)
          ++ [{| acc_userId := id; balance := 15; lastUpdated := now w |}])%list)
    /\
    ((forall id, result run <> Normal (UserRoutes.Created_201 id)) -> db w' = db w)
    /\
    (result run = Normal UserRoutes.InternalError_500 <->
     UserRoutes.missing (UserRoutes.body_username body) = false /\
     UserRoutes.missing (UserRoutes.body_email body) = false /\
     UserRoutes.missing (UserRoutes.body_password body) = false /\
     UserRoutes.isStrongPassword password = true /\
     ~ In mail (map email (users (db w))) /\
     ~ In name (map username (users (db w))) /\
     exists p x,
       UserRoutes.body_phone body = Some p /\ In x (users (db w)) /\
       phone x = Some p).
Proof.
  intros w body Hwf run w' name mail password. subst w' run.
  rewrite register_run. cbv zeta. fold name mail password.
  destruct (UserRoutes.missing (UserRoutes.body_username body)) eqn:M1;
    cbn [orb]; [refused_registration|].
  destruct (UserRoutes.missing (UserRoutes.body_email body)) eqn:M2;
    cbn [orb]; [refused_registration|].
  destruct (UserRoutes.missing (UserRoutes.body_password body)) eqn:M3;
    [refused_registration|].
  destruct (UserRoutes.isStrongPassword password) eqn:S; cbn [negb];
    [|refused_registration].
  destruct (find (fun u => String.eqb (email u) mail) (users (db w)))
    as [found|] eqn:Fe.
  { split; [eexists; reflexivity|]. split; [discriminate|].
    split; [reflexivity|]. split; [discriminate|].
    intros (_ & _ & _ & _ & N & _). exfalso. apply N.
    apply find_some in Fe. destruct Fe as [Hin He].
    apply in_map_iff. exists found. split; [|exact Hin].
    apply String.eqb_eq. exact He. }
  destruct (find (fun u => String.eqb (username u) name) (users (db w)))
    as [found|] eqn:Fu.
  { split; [eexists; reflexivity|]. split; [discriminate|].
    split; [reflexivity|]. split; [discriminate|].
    intros (_ & _ & _ & _ & _ & N & _). exfalso. apply N.
    apply find_some in Fu. destruct Fu as [Hin He].
    apply in_map_iff. exists found. split; [|exact Hin].
    apply String.eqb_eq. exact He. }
  pose proof (phone_clash_only (db w) name mail (UserRoutes.body_phone body)
                Fe Fu) as Hphone.
  pose proof (user_conflict_taken w name mail (UserRoutes.body_phone body) true
                (now w) (now w) Hwf) as Hc.
  assert (Nmail : ~ In mail (map email (users (db w)))).
  { apply not_in_column. apply find_none_existsb. exact Fe. }
  assert (Nname : ~ In name (map username (users (db w)))).
  { apply not_in_column. apply find_none_existsb. exact Fu. }
  rewrite createUser_run. cbv zeta.
  destruct (Db.user_conflict _ (db w)) eqn:E.
  - split; [eexists; reflexivity|]. split; [discriminate|].
    split; [reflexivity|]. split; [|reflexivity].
    intros _. repeat (split; [first [reflexivity|assumption]|]).
    apply Hphone. apply Hc. reflexivity.
  - rewrite (well_formed_account_id w
               {| acc_userId := next_uuid w; balance := 15; lastUpdated := now w |}
               Hwf eq_refl).
    split; [eexists; reflexivity|]. split.
    + intros id H. injection H as <-. repeat split.
    + split.
      * intro H. exfalso. exact (H (next_uuid w) eq_refl).
      * split; [discriminate|].
        intros (_ & _ & _ & _ & _ & _ & T). apply Hphone in T. apply Hc in T.
        discriminate.
Qed.

Lemma register_outcomes_witness :
  well_formed signed_up /\
  result (UserRoutes.register
            {| UserRoutes.body_username := Some "bob";
               UserRoutes.body_email := Some "bob@example.com";
               UserRoutes.body_password := Some "Passw0rd?";
               UserRoutes.body_phone := None |} signed_up)
  = Normal (UserRoutes.Created_201 2%nat) /\
  UserRoutes.isStrongPassword "Passw0rd?" = true.
Proof.
  assert (W : well_formed signed_up) by (split; reflexivity).
  split; [exact W|]. split; [reflexivity|].
  destruct (register_outcomes signed_up
              {| UserRoutes.body_username := Some "bob";
                 UserRoutes.body_email := Some "bob@example.com";
                 UserRoutes.body_password := Some "Passw0rd?";
                 UserRoutes.body_phone := None |} W) as (_ & H & _).
  exact (proj1 (proj2 (H 2%nat eq_refl))).
Defined.

(** ** The payment listing *)

(** X20. [getUserPayments] reads without writing; every payment it returns
    is a stored payment of the user asked for, the payments come newest
    first, and a non-negative limit (50 when none is given) bounds their
    number. *)
Theorem getUserPayments_page :
  forall w userId limit offset,
    exists rows,
      PaymentModel.getUserPayments userId limit offset w = (Normal rows, w) /\
      (forall p, In p rows -> In p (payments (db w)) /\ pay_userId p = userId) /\
      StronglySorted (newer_or_same pay_createdAt) rows /\
      (let n := match limit with Some n => n | None => 50 end in
       n < 0 \/ Z.of_nat (List.length rows) <= n).
Proof.
  intros w userId limit offset.
  unfold PaymentModel.getUserPayments, Db.select. cbv zeta.
  eexists. split; [reflexivity|]. split; [|split].
  - intros r Hr. apply listing_in in Hr. destruct Hr as [Hin Hu].
    split; [exact Hin|]. apply Nat.eqb_eq. exact Hu.
  - apply limit_offset_sorted. apply order_by_desc_sorted.
  - apply limit_offset_length.
Qed.
